(** * roland-composer: the sequencer engine and the drag manager

    A shallow embedding of [createRoland808Model] (the effector store graph
    of the step sequencer) and of the range drag control of
    [createDragManager], with the properties of the specification stated
    over them.

    Conventions of the embedding.
    - A JS [number] held in a pattern cell or in the [$note] store is a [Z];
      the numbers of the drag manager (pointer distances, thresholds, range
      bounds) are rationals [Q], which stand for finite doubles away from
      the limits of their precision.
    - A JS object used as a record of instrument keys is an association list
      in insertion order, which is the order [Object.entries] walks it in
      (for keys that are not integer-like, as instrument names are).
    - An effector store is a field of the state record; an event is a
      function on the state.  A reducer that throws leaves its store as it
      was (effector catches the error and drops the update), so a throwing
      reducer is an [option] and the store takes [default] of the old value.
    - Calls to the collaborators (instrument [play()], [Tone.start()], the
      ticker) are collected in a list of [Call]s.

    The tempo is handled as the value of its store, outside the state
    record; [togglePlay], the ticker's delay and the throttling of pointer
    moves are left out. *)

From Stdlib Require Import ZArith QArith Qround Lqa.
From stdpp Require Import base option list strings.

Local Open Scope Z_scope.

(** ** JS objects keyed by strings *)

Module Obj.
Section obj.
Context {V : Type}.

(** [o[k]] *)
Fixpoint get (o : list (string * V)) (k : string) : option V :=
  match o with
  | [] => None
  | (k', v) :: o' => if decide (k' = k) then Some v else get o' k
  end.

(** [{...o, [k]: v}] and [o[k] = v]: an existing key keeps its place, a
    new key goes last. *)
Fixpoint set (o : list (string * V)) (k : string) (v : V) : list (string * V) :=
  match o with
  | [] => [(k, v)]
  | (k', v') :: o' =>
      if decide (k' = k) then (k', v) :: o' else (k', v') :: set o' k v
  end.

(** [Object.fromEntries(entries)], also [Object.assign(o, entries)] when
    started from [o]. *)
Definition assign (o : list (string * V)) (entries : list (string * V))
  : list (string * V) :=
  fold_left (λ acc kv, set acc kv.1 kv.2) entries o.

Definition keys (o : list (string * V)) : list string := fst <$> o.
End obj.
End Obj.

(** ** Data model *)

Inductive AB := AB_a | AB_b.
Inductive ABMode := ABMode_a | ABMode_ab | ABMode_b.

(** The string each enum value is at run time; [mode !== ab] compares these. *)
Definition AB_str (x : AB) : string :=
  match x with AB_a => "a" | AB_b => "b" end.
Definition ABMode_str (x : ABMode) : string :=
  match x with ABMode_a => "a" | ABMode_ab => "ab" | ABMode_b => "b" end.

#[global] Instance AB_eq_dec : EqDecision AB.
Proof. solve_decision. Defined.
#[global] Instance ABMode_eq_dec : EqDecision ABMode.
Proof. solve_decision. Defined.

(** [type InstrumentDataset = { a?: number[]; b?: number[] }] *)
Record InstrumentDataset := {
  ds_a : option (list Z);
  ds_b : option (list Z);
}.

(** [dataset[ab]] *)
Definition bank_of (ds : InstrumentDataset) (ab : AB) : option (list Z) :=
  match ab with AB_a => ds_a ds | AB_b => ds_b ds end.

(** [{...ds, [ab]: arr}] *)
Definition with_bank (ds : InstrumentDataset) (ab : AB) (arr : list Z)
  : InstrumentDataset :=
  match ab with
  | AB_a => {| ds_a := Some arr; ds_b := ds_b ds |}
  | AB_b => {| ds_a := ds_a ds; ds_b := Some arr |}
  end.

Abbreviation InstrumentsSetDataset := (list (string * InstrumentDataset)).

(** [arr[i]] for a JS number [i]: [undefined] outside the array. *)
Definition js_index {A} (arr : list A) (i : Z) : option A :=
  if decide (0 ≤ i) then arr !! Z.to_nat i else None.

(** Truthiness of a cell read [arr?.[i]]: [undefined] and [0] are falsy. *)
Definition truthy (v : option Z) : bool :=
  match v with
  | Some n => negb (n =? 0)
  | None => false
  end.

Definition toggleNumber (v : Z) : Z := if v =? 0 then 1 else 0.

(** [Array.from({ length: 16 })]: sixteen [undefined]s. *)
Definition Array_from_16 : list unit := replicate 16 tt.

Definition createInstrumentDataset : InstrumentDataset :=
  {| ds_a := Some ((λ _, 0) <$> Array_from_16);
     ds_b := Some ((λ _, 0) <$> Array_from_16) |}.

(** [createDataset({ instruments, initial })]; [instruments] stands for
    [Object.keys(config.instruments)]. *)
Definition createDataset (instruments : list string)
    (initial : option InstrumentsSetDataset) : InstrumentsSetDataset :=
  let dataset :=
    Obj.assign [] ((λ key, (key, createInstrumentDataset)) <$> instruments) in
  match initial with
  | Some init => Obj.assign dataset init
  | None => dataset
  end.

(** The cell [d[key]?.[bank]?.[i]] of a dataset. *)
Definition cell (d : InstrumentsSetDataset) (key : string) (bank : AB) (i : nat)
  : option Z :=
  ds ← Obj.get d key; arr ← bank_of ds bank; arr !! i.

(** *** The dataset invariant *)

Definition binary16 (arr : list Z) : bool :=
  (length arr =? 16)%nat && forallb (λ v, (v =? 0) || (v =? 1)) arr.

Definition wf_instrument (ds : InstrumentDataset) : bool :=
  match ds_a ds, ds_b ds with
  | Some x, Some y => binary16 x && binary16 y
  | _, _ => false
  end.

(** Every instrument key present, both banks of length 16, binary values. *)
Definition wf_dataset (instruments : list string) (d : InstrumentsSetDataset)
  : bool :=
  forallb (λ key, from_option wf_instrument false (Obj.get d key)) instruments.

(** ** The sequencer engine: [createRoland808Model] *)

(** The stores of the model.  The five tumblers are the [value] stores of
    the [createToggle] instances. *)
Record Roland808Model := {
  currentMode : string;
  instrument : string;
  abMode : ABMode;
  ab : AB;
  dataset : InstrumentsSetDataset;
  note : Z;
  isRunning : bool;
  lowTumbler : bool;
  midTumbler : bool;
  hiTumbler : bool;
  rimShotTumbler : bool;
  clapTumbler : bool;
}.

Definition set_currentMode (v : string) (m : Roland808Model) :=
  {| currentMode := v; instrument := instrument m; abMode := abMode m;
     ab := ab m; dataset := dataset m; note := note m;
     isRunning := isRunning m; lowTumbler := lowTumbler m;
     midTumbler := midTumbler m; hiTumbler := hiTumbler m;
     rimShotTumbler := rimShotTumbler m; clapTumbler := clapTumbler m |}.
Definition set_instrument (v : string) (m : Roland808Model) :=
  {| currentMode := currentMode m; instrument := v; abMode := abMode m;
     ab := ab m; dataset := dataset m; note := note m;
     isRunning := isRunning m; lowTumbler := lowTumbler m;
     midTumbler := midTumbler m; hiTumbler := hiTumbler m;
     rimShotTumbler := rimShotTumbler m; clapTumbler := clapTumbler m |}.
Definition set_abMode (v : ABMode) (m : Roland808Model) :=
  {| currentMode := currentMode m; instrument := instrument m; abMode := v;
     ab := ab m; dataset := dataset m; note := note m;
     isRunning := isRunning m; lowTumbler := lowTumbler m;
     midTumbler := midTumbler m; hiTumbler := hiTumbler m;
     rimShotTumbler := rimShotTumbler m; clapTumbler := clapTumbler m |}.
Definition set_ab (v : AB) (m : Roland808Model) :=
  {| currentMode := currentMode m; instrument := instrument m;
     abMode := abMode m; ab := v; dataset := dataset m; note := note m;
     isRunning := isRunning m; lowTumbler := lowTumbler m;
     midTumbler := midTumbler m; hiTumbler := hiTumbler m;
     rimShotTumbler := rimShotTumbler m; clapTumbler := clapTumbler m |}.
Definition set_dataset (v : InstrumentsSetDataset) (m : Roland808Model) :=
  {| currentMode := currentMode m; instrument := instrument m;
     abMode := abMode m; ab := ab m; dataset := v; note := note m;
     isRunning := isRunning m; lowTumbler := lowTumbler m;
     midTumbler := midTumbler m; hiTumbler := hiTumbler m;
     rimShotTumbler := rimShotTumbler m; clapTumbler := clapTumbler m |}.
Definition set_note (v : Z) (m : Roland808Model) :=
  {| currentMode := currentMode m; instrument := instrument m;
     abMode := abMode m; ab := ab m; dataset := dataset m; note := v;
     isRunning := isRunning m; lowTumbler := lowTumbler m;
     midTumbler := midTumbler m; hiTumbler := hiTumbler m;
     rimShotTumbler := rimShotTumbler m; clapTumbler := clapTumbler m |}.
Definition set_isRunning (v : bool) (m : Roland808Model) :=
  {| currentMode := currentMode m; instrument := instrument m;
     abMode := abMode m; ab := ab m; dataset := dataset m; note := note m;
     isRunning := v; lowTumbler := lowTumbler m;
     midTumbler := midTumbler m; hiTumbler := hiTumbler m;
     rimShotTumbler := rimShotTumbler m; clapTumbler := clapTumbler m |}.

(** The substitutable instruments, each with its tumbler. *)
Inductive Tumbler := Low | Mid | Hi | RimShot | Clap.

#[global] Instance Tumbler_eq_dec : EqDecision Tumbler.
Proof. solve_decision. Defined.

(** Modelled from the spec: [createToggle] (lib/createToggle is not among the
    sources) is "a boolean store with an initial value and a toggle event";
    the transition is the flip. *)
Definition toggle_tumbler (t : Tumbler) (m : Roland808Model) :=
  let flip (t' : Tumbler) (v : bool) :=
    if decide (t = t') then negb v else v in
  {| currentMode := currentMode m; instrument := instrument m;
     abMode := abMode m; ab := ab m; dataset := dataset m; note := note m;
     isRunning := isRunning m; lowTumbler := flip Low (lowTumbler m);
     midTumbler := flip Mid (midTumbler m); hiTumbler := flip Hi (hiTumbler m);
     rimShotTumbler := flip RimShot (rimShotTumbler m);
     clapTumbler := flip Clap (clapTumbler m) |}.

(** [$substitutedInstruments]: the combined tumbler values by instrument key. *)
Definition substitutedInstruments (m : Roland808Model) : list (string * bool) :=
  [("lowTom", lowTumbler m); ("midTom", midTumbler m); ("hiTom", hiTumbler m);
   ("handClap", clapTumbler m); ("rimShot", rimShotTumbler m)].

(** What the engine asks of its collaborators. *)
Inductive Call :=
  | Play (key : string)   (* instruments[key].play() *)
  | ToneStart             (* Tone.start() *)
  | GeneratorStart        (* generator.start *)
  | GeneratorStop.        (* generator.stop *)

(** How an effect run settles: [fx.done] or [fx.fail]. *)
Inductive Outcome := Done | Fail.

(** A store updated by a reducer that may throw. *)
Definition store_on {S} (old : S) (reduced : option S) : S :=
  default old reduced.

(** *** Derived stores *)

(** [$activeInstrumentPads] *)
Definition activeInstrumentPads (m : Roland808Model) : list Z :=
  default (imap (λ k _, Z.of_nat k) Array_from_16)
          (ds ← Obj.get (dataset m) (instrument m); bank_of ds (ab m)).

(** [copy[i] = v] on a JS array whose holes are [None]: a write past the end
    extends the array, a negative index is a property, not an element. *)
Definition js_array_write (copy : list (option Z)) (i : Z) (v : Z)
  : list (option Z) :=
  if decide (i < 0) then copy
  else if decide (Z.to_nat i < length copy)%nat
       then <[Z.to_nat i := Some v]> copy
       else copy ++ replicate (Z.to_nat i - length copy) None ++ [Some v].

(** The combinator of [$activePadLights]. *)
Definition padLights (activePads : list Z) (note : Z) (isRunning : bool)
  : list (option Z) :=
  let copy := Some <$> activePads in
  if isRunning
  then js_array_write copy note
         (if truthy (mjoin (js_index copy note)) then 0 else 1)
  else copy.

Definition activePadLights (m : Roland808Model) : list (option Z) :=
  padLights (activeInstrumentPads m) (note m) (isRunning m).

(** *** Events and effects *)

Section engine.

(** [Object.keys(instruments)] of [createInstrumentsSet()], whose source is
    not part of the development: the instrument keys are a parameter. *)
Variable instruments : list string.

(** The stores as [createRoland808Model(config)] creates them;
    [playerModes_1] stands for the constant [playerModes[1]]. *)
Definition createRoland808Model (playerModes_1 : string)
    (config_dataset : option InstrumentsSetDataset) : Roland808Model :=
  {| currentMode := playerModes_1; instrument := "bassDrum";
     abMode := ABMode_a; ab := AB_a;
     dataset := createDataset instruments config_dataset;
     note := 0; isRunning := false;
     lowTumbler := false; midTumbler := false; hiTumbler := false;
     rimShotTumbler := false; clapTumbler := false |}.

Definition setCurrentMode : string → Roland808Model → Roland808Model :=
  set_currentMode.
Definition setInstrument : string → Roland808Model → Roland808Model :=
  set_instrument.
Definition setABMode : ABMode → Roland808Model → Roland808Model := set_abMode.

(** [$ab.on(toggleAB, ...)] *)
Definition toggleAB (m : Roland808Model) : Roland808Model :=
  set_ab (match ab m with AB_a => AB_b | AB_b => AB_a end) m.

(** [$abMode.on(cycleABModes, ...)] *)
Definition cycleABModes (m : Roland808Model) : Roland808Model :=
  set_abMode (match abMode m with
              | ABMode_a => ABMode_ab
              | ABMode_ab => ABMode_b
              | ABMode_b => ABMode_a
              end) m.

(** The reducer of [toggleActiveInstrumentPad]; reading
    [dataset[instrument][ab]] of a missing instrument, or spreading a missing
    bank, throws. *)
Definition toggle_reducer (d : InstrumentsSetDataset) (instrument : string)
    (ab : AB) (pad : Z) : option InstrumentsSetDataset :=
  ds ← Obj.get d instrument;
  arr ← bank_of ds ab;
  Some (Obj.set d instrument
          (with_bank ds ab
             (imap (λ k v, if decide (Z.of_nat k = pad) then toggleNumber v
                           else v) arr))).

Definition toggleActiveInstrumentPad (pad : Z) (m : Roland808Model)
  : Roland808Model :=
  set_dataset
    (store_on (dataset m)
       (toggle_reducer (dataset m) (instrument m) (ab m) pad))
    m.

(** [$dataset.on(sample($instrument, clearPattern), ...)] *)
Definition clearPattern (m : Roland808Model) : Roland808Model :=
  set_dataset (Obj.set (dataset m) (instrument m) createInstrumentDataset) m.

(** [$dataset.on(clearTrack, () => createDataset({ instruments }))] *)
Definition clearTrack (m : Roland808Model) : Roland808Model :=
  set_dataset (createDataset instruments None) m.

Definition isOneOf (args : list string) (target : string) : bool :=
  bool_decide (target ∈ args).
Definition isNotOneOf (args : list string) (target : string) : bool :=
  negb (bool_decide (target ∈ args)).

(** The two guards on [clearButtonPressed]. *)
Definition clearButtonPressed (m : Roland808Model) : Roland808Model :=
  let m1 :=
    if isOneOf ["compose"; "play"] (currentMode m) then clearTrack m else m in
  if isNotOneOf ["compose"; "play"; "manualPlay"] (currentMode m)
  then clearPattern m1 else m1.

(** [noteAdjusted] of the [tapPressed] reducer. *)
Definition noteAdjusted (note : Z) : Z :=
  if decide (note - 1 < 0) then 0 else note - 1.

Definition tap_reducer (d : InstrumentsSetDataset) (instrument : string)
    (ab : AB) (note : Z) : option InstrumentsSetDataset :=
  ds ← Obj.get d instrument;
  arr ← bank_of ds ab;
  Some (Obj.set d instrument
          (with_bank ds ab
             (imap (λ k v, if decide (Z.of_nat k = noteAdjusted note) then 1
                           else v) arr))).

Definition tapPressed (m : Roland808Model) : Roland808Model :=
  set_dataset
    (store_on (dataset m)
       (tap_reducer (dataset m) (instrument m) (ab m) (note m)))
    m.

(** The [start] effect.  Units wired to the effect itself fire when it is
    called: [$isRunning.on(start, () => true)] and the forward to
    [generator.start]. *)
Definition start_called (m : Roland808Model) : Roland808Model * list Call :=
  (set_isRunning true m, [GeneratorStart]).

(** The settlement of [start]: neither [start.done] nor [start.fail] has a
    subscriber, so no store reacts to the outcome. *)
Definition start_settled (o : Outcome) (m : Roland808Model) : Roland808Model :=
  match o with
  | Done => m   (* start.done *)
  | Fail => m   (* start.fail *)
  end.

(** One run of [start]: the call, the handler [await Tone.start()], and the
    settlement with the outcome [warmup] of the audio-engine warm-up. *)
Definition start (warmup : Outcome) (m : Roland808Model)
  : Roland808Model * list Call :=
  let '(m1, calls) := start_called m in
  (start_settled warmup m1, calls ++ [ToneStart]).

(** The [stop] effect: [$isRunning.on(stop, () => false)] and the forward to
    [generator.stop]; its handler returns [null]. *)
Definition stop (m : Roland808Model) : Roland808Model * list Call :=
  (set_isRunning false m, [GeneratorStop]).

(** The handler of [fxPlay]: [Object.entries(dataset).forEach(...)].  Calling
    [play] on a key the instruments set does not have throws, which ends the
    loop and fails the effect.  The handler receives
    [params.substitutedInstruments] and never reads it. *)
Fixpoint fxPlay_handler (entries : InstrumentsSetDataset) (ab : AB) (note : Z)
    (substituted : list (string * bool)) : list Call * Outcome :=
  match entries with
  | [] => ([], Done)
  | (key, ds) :: rest =>
      if truthy (arr ← bank_of ds ab; js_index arr note) then
        if bool_decide (key ∈ instruments) then
          let '(calls, o) := fxPlay_handler rest ab note substituted in
          (Play key :: calls, o)
        else ([], Fail)
      else fxPlay_handler rest ab note substituted
  end.

(** [abToggled]: the filter store [combine($abMode, $ab, ...)]. *)
Definition abToggled_filter (mode : ABMode) (ab : AB) : bool :=
  if decide (ABMode_str mode = "ab") then true
  else bool_decide (ABMode_str mode ≠ AB_str ab).

(** [$note.updates] carrying [n]: the two guards, then the forward to
    [toggleAB]. *)
Definition note_updates (n : Z) (m : Roland808Model) : Roland808Model :=
  if bool_decide (n = 0) && abToggled_filter (abMode m) (ab m)
  then toggleAB m else m.

(** [$note.on(fxPlay.done, ...)]; [updates] fires when the value changed. *)
Definition fxPlay_done (m : Roland808Model) : Roland808Model :=
  let n := if decide (note m = 15) then 0 else note m + 1 in
  if decide (n = note m) then m else note_updates n (set_note n m).

(** [generator.tick], forwarded to [fxPlay]: the handler runs on the sampled
    stores, and the note advances when it is done. *)
Definition tick (m : Roland808Model) : Roland808Model * list Call :=
  let '(calls, o) :=
    fxPlay_handler (dataset m) (ab m) (note m) (substitutedInstruments m) in
  (match o with Done => fxPlay_done m | Fail => m end, calls).

(** The events the model reacts to. *)
Inductive Event :=
  | E_setCurrentMode (mode : string)
  | E_setInstrument (key : string)
  | E_setABMode (mode : ABMode)
  | E_cycleABModes
  | E_toggleAB
  | E_toggleTumbler (t : Tumbler)
  | E_toggleActiveInstrumentPad (pad : Z)
  | E_clearButtonPressed
  | E_clearTrack
  | E_clearPattern
  | E_tapPressed
  | E_start (warmup : Outcome)
  | E_stop
  | E_tick.

Definition step (m : Roland808Model) (e : Event) : Roland808Model * list Call :=
  match e with
  | E_setCurrentMode mode => (setCurrentMode mode m, [])
  | E_setInstrument key => (setInstrument key m, [])
  | E_setABMode mode => (setABMode mode m, [])
  | E_cycleABModes => (cycleABModes m, [])
  | E_toggleAB => (toggleAB m, [])
  | E_toggleTumbler t => (toggle_tumbler t m, [])
  | E_toggleActiveInstrumentPad pad => (toggleActiveInstrumentPad pad m, [])
  | E_clearButtonPressed => (clearButtonPressed m, [])
  | E_clearTrack => (clearTrack m, [])
  | E_clearPattern => (clearPattern m, [])
  | E_tapPressed => (tapPressed m, [])
  | E_start warmup => start warmup m
  | E_stop => stop m
  | E_tick => tick m
  end.

(** A sequence of events, with the calls it makes in order. *)
Fixpoint run (m : Roland808Model) (es : list Event)
  : Roland808Model * list Call :=
  match es with
  | [] => (m, [])
  | e :: es' =>
      let '(m1, c1) := step m e in
      let '(m2, c2) := run m1 es' in
      (m2, c1 ++ c2)
  end.

End engine.

(** *** Chains: [cycleInstrument], [cycleBPM] *)

(** [chain.indexOf(x)]: the first position holding [x], or -1. *)
Fixpoint indexOf {A} `{EqDecision A} (chain : list A) (x : A) : Z :=
  match chain with
  | [] => -1
  | y :: rest =>
      if decide (y = x) then 0
      else if decide (indexOf rest x = -1) then -1 else indexOf rest x + 1
  end.

(** The body the reducers of [cycleInstrument] and [cycleBPM] share: the
    element after the current one, the first element past the end or for a
    value the chain does not hold.  On an empty chain the result is
    [undefined], which a store takes as no update. *)
Definition chain_next {A} `{EqDecision A} (chain : list A) (current : A)
  : option A :=
  let idx := indexOf chain current in
  if decide (idx = -1 ∨ idx + 1 = Z.of_nat (length chain))
  then js_index chain 0
  else js_index chain (idx + 1).

(** [$instrument.on(cycleInstrument, ...)]; [instrumentsChain] is a constant
    of the missing shared/constants and so a parameter. *)
Definition cycleInstrument (instrumentsChain : list string)
    (m : Roland808Model) : Roland808Model :=
  set_instrument
    (store_on (instrument m) (chain_next instrumentsChain (instrument m))) m.

(** [$bpm.on(cycleBPM, ...)] on the value of the [$bpm] store; [BPM] is a
    constant of the missing shared/constants and so a parameter. *)
Definition cycleBPM (BPM : list Z) (currentBPM : Z) : Z :=
  store_on currentBPM (chain_next BPM currentBPM).

(** An event whose payload has the type the source declares for it: the key
    of [setInstrument] is one of the instrument keys. *)
Definition typed_event (instruments : list string) (e : Event) : bool :=
  match e with
  | E_setInstrument key => bool_decide (key ∈ instruments)
  | _ => true
  end.

(** The keys of the default dataset and a selected instrument among the
    instruments: kept by every well-typed event. *)
Definition keys_fixed (instruments : list string) (m : Roland808Model) : Prop :=
  Obj.keys (dataset m) = Obj.keys (createDataset instruments None)
  ∧ instrument m ∈ instruments.

(** What reaches the stores of the state from outside: the events of
    [Event] and [cycleInstrument].  ([togglePlay] and [initialize] act
    through the [start] and [stop] effects; [setBPM] and [cycleBPM] reach
    the tempo store only.) *)
Inductive Input :=
  | I_event (e : Event)
  | I_cycleInstrument.

Definition typed_input (instruments : list string) (i : Input) : bool :=
  match i with
  | I_event e => typed_event instruments e
  | I_cycleInstrument => true
  end.

Definition feed (instruments instrumentsChain : list string)
    (m : Roland808Model) (i : Input) : Roland808Model * list Call :=
  match i with
  | I_event e => step instruments m e
  | I_cycleInstrument => (cycleInstrument instrumentsChain m, [])
  end.

Fixpoint feeds (instruments instrumentsChain : list string)
    (m : Roland808Model) (l : list Input) : Roland808Model * list Call :=
  match l with
  | [] => (m, [])
  | i :: l' =>
      let '(m1, c1) := feed instruments instrumentsChain m i in
      let '(m2, c2) := feeds instruments instrumentsChain m1 l' in
      (m2, c1 ++ c2)
  end.

(** ** The drag manager: stepped and range drag controls

    The handlers a registrar installs close over a [cache] variable that
    [onStart] fills from [resolveCache()]; a drag session always runs
    [onStart] before the first [onDrag], so [onDrag] takes the cache as an
    argument.  Numbers are exact rationals. *)

Module DragManager.

(** [Math.round]: the nearest integer, halves towards plus infinity. *)
Definition Math_round (x : Q) : Z := Qfloor (x + (1 # 2))%Q.

(** [config.threshold || 35]: a missing or zero threshold is 35. *)
Definition threshold_or_35 (threshold : option Q) : Q :=
  match threshold with
  | Some t => if Qeq_bool t 0 then 35%Q else t
  | None => 35%Q
  end.

(** [onDrag] of a stepped control over a dictionary of [len] values: the
    index handed to [config.dictionary[...]]. *)
Definition steppedOnDrag (len : nat) (threshold : option Q) (cache : Q)
    (distance : Q) : Z :=
  let base := Z.of_nat len - 1 in
  let threshold := threshold_or_35 threshold in
  let newIdx := Math_round (inject_Z base - cache - distance / threshold)%Q in
  let maxIdx := Z.of_nat len - 1 in
  base - (if decide (newIdx > maxIdx) then maxIdx
          else if decide (newIdx ≤ 0) then 0 else newIdx).

(** [onDrag] of a range control: the value handed to [config.handler]. *)
Definition rangeOnDrag (range : Q * Q) (threshold : option Q) (cache : Q)
    (distance : Q) : Q :=
  let base := range.2 in
  let threshold := threshold_or_35 threshold in
  let newValue :=
    inject_Z (Math_round (base - cache - distance / threshold)%Q) in
  let maxValue := base in
  (base -
   (if negb (Qle_bool newValue maxValue) then maxValue
    else if Qle_bool newValue range.1 then range.1
    else newValue))%Q.

End DragManager.

(** ** The drag manager: sessions

    The state [createDragManager] closes over, and the effects that move it.
    Scene objects are compared by identity, so they are any type with
    decidable equality; the callbacks of a [DragHandlers] record are opaque,
    and invoking one is a [HandlerCall].  [activeElement] is the value of the
    intersection manager's store when the event arrives: [None] when nothing
    is under the pointer. *)

Module DragSession.

Record MouseEvent := { ev_x : Q; ev_y : Q }.

Section session.
Context {Object3D : Type} `{EqDecision Object3D} {Handlers : Type}.

Inductive HandlerCall :=
  | PreventDefault (event : MouseEvent)
  | StopImmediatePropagation (event : MouseEvent)
  | OnStart (handlers : Handlers) (activeElement : Object3D)
      (event : MouseEvent)
  | OnDrag (handlers : Handlers) (distance : Q)
  | OnEnd (handlers : Handlers).

(** The caches, the registration map, the [$isDragging] store and the two
    document listeners [addEventListeners] installs.  The [mousemove]
    listener follows [$isDragging] through its watcher. *)
Record State := {
  activeElementCache : option Object3D;
  mousePositionCache : Q * Q;
  currentDragHandlerCache : option Handlers;
  dragHandlersMap : list (Object3D * Handlers);
  isDragging : bool;
  mousedownListener : bool;
  mouseupListener : bool;
}.

Definition initial : State :=
  {| activeElementCache := None; mousePositionCache := (0, 0)%Q;
     currentDragHandlerCache := None; dragHandlersMap := [];
     isDragging := false; mousedownListener := false;
     mouseupListener := false |}.

(** [dragHandlersMap.get(object)]; the newest registration of an object is
    the first in the list. *)
Fixpoint map_get (map : list (Object3D * Handlers)) (object : Object3D)
  : option Handlers :=
  match map with
  | [] => None
  | (o, h) :: rest => if decide (o = object) then Some h else map_get rest object
  end.

(** [register]: [dragHandlersMap.set(object, handlers)]. *)
Definition register (object : Object3D) (handlers : Handlers) (s : State)
  : State :=
  {| activeElementCache := activeElementCache s;
     mousePositionCache := mousePositionCache s;
     currentDragHandlerCache := currentDragHandlerCache s;
     dragHandlersMap := (object, handlers) :: dragHandlersMap s;
     isDragging := isDragging s;
     mousedownListener := mousedownListener s;
     mouseupListener := mouseupListener s |}.

Definition set_isDragging (v : bool) (s : State) : State :=
  {| activeElementCache := activeElementCache s;
     mousePositionCache := mousePositionCache s;
     currentDragHandlerCache := currentDragHandlerCache s;
     dragHandlersMap := dragHandlersMap s;
     isDragging := v;
     mousedownListener := mousedownListener s;
     mouseupListener := mouseupListener s |}.

(** [addEventListeners]: [mousedown] and [mouseup]. *)
Definition addEventListeners (s : State) : State :=
  {| activeElementCache := activeElementCache s;
     mousePositionCache := mousePositionCache s;
     currentDragHandlerCache := currentDragHandlerCache s;
     dragHandlersMap := dragHandlersMap s;
     isDragging := isDragging s;
     mousedownListener := true;
     mouseupListener := true |}.

(** [removeEventListeners]: [mouseup] only. *)
Definition removeEventListeners (s : State) : State :=
  {| activeElementCache := activeElementCache s;
     mousePositionCache := mousePositionCache s;
     currentDragHandlerCache := currentDragHandlerCache s;
     dragHandlersMap := dragHandlersMap s;
     isDragging := isDragging s;
     mousedownListener := mousedownListener s;
     mouseupListener := false |}.

(** The [onDragStart] effect on the active object: [$isDragging] turns true
    at the call; the handler suppresses the event, runs [onStart], and fills
    the three caches.  With no handlers registered for the object
    [handlers.onStart] throws before any cache is written. *)
Definition onDragStart (object : Object3D) (event : MouseEvent) (s : State)
  : State * list HandlerCall :=
  match map_get (dragHandlersMap s) object with
  | Some handlers =>
      ({| activeElementCache := Some object;
          mousePositionCache := (ev_x event, ev_y event);
          currentDragHandlerCache := Some handlers;
          dragHandlersMap := dragHandlersMap s;
          isDragging := true;
          mousedownListener := mousedownListener s;
          mouseupListener := mouseupListener s |},
       [PreventDefault event; StopImmediatePropagation event;
        OnStart handlers object event])
  | None =>
      (set_isDragging true s,
       [PreventDefault event; StopImmediatePropagation event])
  end.

(** The [onMouseDown] effect and the guard on its [doneData]: reading
    [.object] of no active element throws and the effect fails; a [null]
    result (no handlers registered) is filtered out; otherwise
    [onDragStart] runs. *)
Definition onMouseDown (activeElement : option Object3D) (event : MouseEvent)
    (s : State) : State * list HandlerCall :=
  match activeElement with
  | None => (s, [])
  | Some object =>
      match map_get (dragHandlersMap s) object with
      | None => (s, [])
      | Some _ => onDragStart object event s
      end
  end.

(** The [onDrag] effect: the distance from the cached position, handed to
    the cached handler; calling the missing handler throws. *)
Definition onDrag (event : MouseEvent) (s : State)
  : list HandlerCall * Outcome :=
  match currentDragHandlerCache s with
  | Some handlers =>
      ([OnDrag handlers (ev_x event - (mousePositionCache s).1)%Q], Done)
  | None => ([], Fail)
  end.

(** The [onDragEnd] effect: [$isDragging] turns false; the handler returns
    [null]. *)
Definition onDragEnd (s : State) : State := set_isDragging false s.

(** What reaches the manager: registrations, the two listener effects, and
    the document's [mousedown] and [mouseup] events, which arrive only while
    their listener is installed. *)
Inductive Action :=
  | A_register (object : Object3D) (handlers : Handlers)
  | A_addEventListeners
  | A_removeEventListeners
  | A_mousedown (activeElement : option Object3D) (event : MouseEvent)
  | A_mouseup.

Definition act (s : State) (a : Action) : State * list HandlerCall :=
  match a with
  | A_register object handlers => (register object handlers s, [])
  | A_addEventListeners => (addEventListeners s, [])
  | A_removeEventListeners => (removeEventListeners s, [])
  | A_mousedown activeElement event =>
      if mousedownListener s then onMouseDown activeElement event s
      else (s, [])
  | A_mouseup => if mouseupListener s then (onDragEnd s, []) else (s, [])
  end.

Fixpoint acts (s : State) (l : list Action) : State * list HandlerCall :=
  match l with
  | [] => (s, [])
  | a :: l' =>
      let '(s1, c1) := act s a in
      let '(s2, c2) := acts s1 l' in
      (s2, c1 ++ c2)
  end.

End session.
End DragSession.

(** ** Sample configurations *)

(** A three-instrument kit and the engine built on it with no override. *)
Definition kit : list string := ["bassDrum"; "snareDrum"; "lowTom"].
Definition demo : Roland808Model := createRoland808Model kit "play" None.

(** An override that gives the bass drum a three-step bank [a] and no bank
    [b]. *)
Definition partial_override : InstrumentsSetDataset :=
  [("bassDrum", {| ds_a := Some [1; 0; 1]; ds_b := None |})].

(** The low tom programmed on step 0 of bank [a], with its tumbler set. *)
Definition lowTom_substituted : Roland808Model :=
  toggle_tumbler Low
    (toggleActiveInstrumentPad 0 (setInstrument "lowTom" demo)).

(** An instrument key outside the kit, selected through [setInstrument],
    given an entry by [clearPattern] and programmed on step 0. *)
Definition stray_cowBell : Roland808Model :=
  toggleActiveInstrumentPad 0 (clearPattern (setInstrument "cowBell" demo)).

(** Scene objects, handler records and a pointer event for drag sessions. *)
Definition knob : nat := 1%nat.
Definition slider : nat := 2%nat.
Definition mouse_at (x y : Q) : DragSession.MouseEvent :=
  {| DragSession.ev_x := x; DragSession.ev_y := y |}.

(** The engine built with [partial_override], switched to the bank the
    bass drum lacks; and the same engine ten ticks into bank [a]. *)
Definition tap_on_absent_bank : Roland808Model :=
  toggleAB (createRoland808Model kit "play" (Some partial_override)).
Definition tap_on_short_bank : Roland808Model :=
  (run kit (createRoland808Model kit "play" (Some partial_override))
     (replicate 10 E_tick)).1.

(** * Properties *)

(** ** Lookup and update of objects *)

Section obj_lemmas.
Context {V : Type}.
Implicit Types (o : list (string * V)) (k : string) (v : V).

Lemma get_set o k k' v :
  Obj.get (Obj.set o k v) k' = if decide (k = k') then Some v else Obj.get o k'.
Proof.
  induction o as [|[k0 v0] o IH]; simpl.
  - destruct (decide (k = k')); reflexivity.
  - destruct (decide (k0 = k)) as [->|Hne]; simpl.
    + destruct (decide (k = k')); reflexivity.
    + destruct (decide (k0 = k')) as [->|Hne'].
      * destruct (decide (k = k')); [congruence|reflexivity].
      * exact IH.
Qed.

Lemma get_set_eq o k v : Obj.get (Obj.set o k v) k = Some v.
Proof. rewrite get_set. destruct (decide (k = k)); congruence. Qed.

Lemma get_set_ne o k k' v :
  k ≠ k' → Obj.get (Obj.set o k v) k' = Obj.get o k'.
Proof. intros Hne. rewrite get_set. destruct (decide (k = k')); congruence. Qed.

Lemma set_get_id o k v : Obj.get o k = Some v → Obj.set o k v = o.
Proof.
  induction o as [|[k0 v0] o IH]; simpl; [discriminate|].
  destruct (decide (k0 = k)) as [->|Hne]; intros H.
  - congruence.
  - f_equal. auto.
Qed.

Lemma set_set o k v v' : Obj.set (Obj.set o k v) k v' = Obj.set o k v'.
Proof.
  induction o as [|[k0 v0] o IH]; simpl.
  - destruct (decide (k = k)); congruence.
  - destruct (decide (k0 = k)) as [->|Hne]; simpl.
    + destruct (decide (k = k)); congruence.
    + destruct (decide (k0 = k)); [congruence|]. f_equal. exact IH.
Qed.

Lemma keys_set o k v :
  ∀ k', k' ∈ Obj.keys (Obj.set o k v) ↔ k' = k ∨ k' ∈ Obj.keys o.
Proof.
  unfold Obj.keys. induction o as [|[k0 v0] o IH]; intros k'; simpl.
  - rewrite elem_of_cons. reflexivity.
  - destruct (decide (k0 = k)) as [->|Hne]; simpl.
    + rewrite !elem_of_cons. tauto.
    + rewrite !elem_of_cons, IH. tauto.
Qed.

Lemma keys_assign o entries :
  ∀ k, k ∈ Obj.keys (Obj.assign o entries)
       ↔ k ∈ Obj.keys o ∨ k ∈ Obj.keys entries.
Proof.
  unfold Obj.assign. revert o.
  induction entries as [|[k0 v0] entries IH]; intros o k; simpl.
  - change (Obj.keys (V:=V) []) with (@nil string). rewrite elem_of_nil. tauto.
  - rewrite IH, keys_set.
    change (Obj.keys ((k0, v0) :: entries)) with (k0 :: Obj.keys entries).
    rewrite elem_of_cons. tauto.
Qed.

Lemma get_assign_const o (c : V) (ks : list string) k :
  Obj.get (Obj.assign o ((λ key, (key, c)) <$> ks)) k
  = if bool_decide (k ∈ ks) then Some c else Obj.get o k.
Proof.
  unfold Obj.assign. revert o.
  induction ks as [|k0 ks IH]; intros o; simpl.
  - reflexivity.
  - rewrite IH. destruct (bool_decide_reflect (k ∈ ks)) as [Hin|Hnin].
    + rewrite bool_decide_eq_true_2; [reflexivity|].
      apply elem_of_cons; right; exact Hin.
    + rewrite get_set. destruct (decide (k0 = k)) as [->|Hne].
      * rewrite bool_decide_eq_true_2; [reflexivity|].
        apply elem_of_cons; left; reflexivity.
      * rewrite bool_decide_eq_false_2; [reflexivity|].
        rewrite elem_of_cons. intros [?|?]; congruence.
Qed.

End obj_lemmas.

(** ** Banks, cells and the invariant *)

Lemma bank_of_with_bank ds bank bank' arr :
  bank_of (with_bank ds bank arr) bank'
  = if decide (bank = bank') then Some arr else bank_of ds bank'.
Proof. destruct bank, bank'; reflexivity. Qed.

Lemma with_bank_id ds bank arr :
  bank_of ds bank = Some arr → with_bank ds bank arr = ds.
Proof. destruct ds, bank; simpl; congruence. Qed.

Lemma with_bank_twice ds bank arr arr' :
  with_bank (with_bank ds bank arr) bank arr' = with_bank ds bank arr'.
Proof. destruct bank; reflexivity. Qed.

(** Rewriting one bank array through an index map changes that array only. *)
Lemma cell_rewrite_bank d key bank ds arr (f : nat → Z → Z) key' bank' i :
  Obj.get d key = Some ds →
  bank_of ds bank = Some arr →
  cell (Obj.set d key (with_bank ds bank (imap f arr))) key' bank' i
  = if decide (key = key' ∧ bank = bank')
    then f i <$> cell d key' bank' i
    else cell d key' bank' i.
Proof.
  intros Hget Hbank. unfold cell. rewrite get_set.
  destruct (decide (key = key')) as [<-|Hk]; simpl.
  - rewrite bank_of_with_bank, Hget. simpl.
    destruct (decide (bank = bank')) as [<-|Hb]; simpl.
    + rewrite Hbank. simpl. rewrite list_lookup_imap.
      destruct (decide (key = key ∧ bank = bank)) as [_|[]]; auto.
    + destruct (decide (key = key ∧ bank = bank')) as [[_ ?]|_]; congruence.
  - destruct (decide (key = key' ∧ bank = bank')) as [[? _]|_]; congruence.
Qed.

Lemma binary16_spec arr :
  binary16 arr = true
  ↔ length arr = 16%nat ∧ ∀ i v, arr !! i = Some v → v = 0 ∨ v = 1.
Proof.
  unfold binary16. rewrite andb_true_iff, Nat.eqb_eq, forallb_forall.
  split; intros [Hlen Hall]; split; try exact Hlen.
  - intros i v Hi. apply list_elem_of_lookup_2, list_elem_of_In, Hall in Hi.
    apply orb_true_iff in Hi. lia.
  - intros v Hin. apply list_elem_of_In, list_elem_of_lookup_1 in Hin.
    destruct Hin as [i Hi]. apply Hall in Hi. apply orb_true_iff. lia.
Qed.

Lemma wf_instrument_spec ds :
  wf_instrument ds = true
  ↔ ∀ bank, ∃ arr, bank_of ds bank = Some arr ∧ binary16 arr = true.
Proof.
  unfold wf_instrument. split.
  - destruct ds as [[x|] [y|]]; simpl; try discriminate.
    rewrite andb_true_iff. intros [Hx Hy] [|]; simpl; eauto.
  - intros H. destruct (H AB_a) as (x & Hx & Hbx), (H AB_b) as (y & Hy & Hby).
    simpl in Hx, Hy. rewrite Hx, Hy, Hbx, Hby. reflexivity.
Qed.

Lemma wf_dataset_spec instruments d :
  wf_dataset instruments d = true
  ↔ ∀ key, key ∈ instruments →
      ∃ ds, Obj.get d key = Some ds ∧ wf_instrument ds = true.
Proof.
  unfold wf_dataset. rewrite forallb_forall. split; intros H key Hin.
  - apply list_elem_of_In, H in Hin.
    destruct (Obj.get d key) as [ds|]; simpl in Hin; [eauto|discriminate].
  - apply list_elem_of_In, H in Hin. destruct Hin as (ds & -> & Hwf). exact Hwf.
Qed.

(** A cell of a well-formed dataset holds 0 or 1 at every step below 16. *)
Lemma wf_cell instruments d key bank i :
  wf_dataset instruments d = true →
  key ∈ instruments →
  (i < 16)%nat →
  ∃ ds arr v, Obj.get d key = Some ds ∧ bank_of ds bank = Some arr
              ∧ arr !! i = Some v ∧ (v = 0 ∨ v = 1).
Proof.
  intros Hwf Hin Hi.
  destruct (proj1 (wf_dataset_spec _ _) Hwf key Hin) as (ds & Hget & Hds).
  destruct (proj1 (wf_instrument_spec _) Hds bank) as (arr & Hbank & Harr).
  apply binary16_spec in Harr. destruct Harr as [Hlen Hbin].
  destruct (lookup_lt_is_Some_2 arr i) as [v Hv]; [lia|].
  exists ds, arr, v. eauto.
Qed.

Lemma binary16_imap (f : nat → Z → Z) arr :
  (∀ k v, v = 0 ∨ v = 1 → f k v = 0 ∨ f k v = 1) →
  binary16 arr = true → binary16 (imap f arr) = true.
Proof.
  intros Hf. rewrite !binary16_spec, length_imap. intros [Hlen Hbin].
  split; [exact Hlen|]. intros i v. rewrite list_lookup_imap.
  destruct (arr !! i) as [w|] eqn:Hw; simpl; [|discriminate].
  intros [= <-]. eauto.
Qed.

Lemma wf_instrument_with_bank ds bank arr :
  wf_instrument ds = true → binary16 arr = true →
  wf_instrument (with_bank ds bank arr) = true.
Proof.
  rewrite !wf_instrument_spec. intros Hds Harr bank'.
  rewrite bank_of_with_bank. destruct (decide (bank = bank')); eauto.
Qed.

Lemma wf_dataset_set instruments d key ds :
  wf_dataset instruments d = true → wf_instrument ds = true →
  wf_dataset instruments (Obj.set d key ds) = true.
Proof.
  rewrite !wf_dataset_spec. intros Hd Hds key' Hin. rewrite get_set.
  destruct (decide (key = key')); eauto.
Qed.

Lemma wf_createInstrumentDataset : wf_instrument createInstrumentDataset = true.
Proof. reflexivity. Qed.

Lemma get_createDataset instruments key :
  Obj.get (createDataset instruments None) key
  = if bool_decide (key ∈ instruments) then Some createInstrumentDataset
    else None.
Proof. unfold createDataset. rewrite get_assign_const. reflexivity. Qed.

Lemma wf_createDataset instruments :
  wf_dataset instruments (createDataset instruments None) = true.
Proof.
  apply wf_dataset_spec. intros key Hin. exists createInstrumentDataset.
  rewrite get_createDataset, bool_decide_eq_true_2 by exact Hin.
  split; reflexivity.
Qed.

(** An override whose every entry is itself complete keeps the invariant. *)
Lemma wf_assign instruments d (entries : InstrumentsSetDataset) :
  wf_dataset instruments d = true →
  forallb (λ kv, wf_instrument kv.2) entries = true →
  wf_dataset instruments (Obj.assign d entries) = true.
Proof.
  unfold Obj.assign. revert d.
  induction entries as [|[k v] entries IH]; intros d Hd He; simpl in *.
  - exact Hd.
  - apply andb_true_iff in He. destruct He as [Hv He].
    apply IH; [apply wf_dataset_set; assumption|exact He].
Qed.

(** ** Transport *)

(** C1, as the code has it: a run of the [start] effect sets the running
    flag when the effect is called, whether the audio-engine warm-up then
    succeeds or fails, and asks the ticker to start at the same moment; the
    run changes no pattern state (dataset, step, bank, bank mode and
    selected instrument are as before). *)
Theorem start_sets_running_at_call (warmup : Outcome) (m : Roland808Model) :
  isRunning (start warmup m).1 = true
  ∧ GeneratorStart ∈ (start warmup m).2
  ∧ dataset (start warmup m).1 = dataset m
  ∧ note (start warmup m).1 = note m
  ∧ ab (start warmup m).1 = ab m
  ∧ abMode (start warmup m).1 = abMode m
  ∧ instrument (start warmup m).1 = instrument m.
Proof.
  destruct warmup; simpl; repeat split; apply elem_of_cons; left; reflexivity.
Qed.

(** C1 fails as stated: from the freshly built, stopped engine, a run of
    [start] whose warm-up fails leaves the running flag set. *)
Lemma start_failed_warmup_is_running :
  isRunning demo = false ∧ isRunning (start Fail demo).1 = true.
Proof. split; reflexivity. Qed.

(** ** Playback position and bank switching *)

Lemma noteAdjusted_max n : noteAdjusted n = Z.max (n - 1) 0.
Proof. unfold noteAdjusted. destruct (decide (n - 1 < 0)); lia. Qed.

(** A completed trigger cycle at step 15 is a step-0 boundary. *)
Lemma fxPlay_done_wraps m :
  note m = 15 → fxPlay_done m = note_updates 0 (set_note 0 m).
Proof.
  intros H. unfold fxPlay_done. rewrite H.
  destruct (decide (15 = 15)); [|congruence].
  destruct (decide (0 = 15)); [discriminate|reflexivity].
Qed.

Lemma note_fxPlay_done m :
  note (fxPlay_done m) = if decide (note m = 15) then 0 else note m + 1.
Proof.
  unfold fxPlay_done, note_updates.
  destruct (decide (note m = 15)) as [H15|H15].
  - destruct (decide (0 = note m)); [lia|].
    destruct (_ && _); reflexivity.
  - destruct (decide (note m + 1 = note m)); [lia|].
    destruct (_ && _); reflexivity.
Qed.

(** C5: from a step [s] in [0,15], a tick whose trigger cycle completes
    moves the playback position to [(s+1) mod 16], once; a cycle that does
    not complete leaves it where it was. *)
Theorem note_advances_mod_16 (instruments : list string) (m : Roland808Model) :
  0 ≤ note m ≤ 15 →
  note (tick instruments m).1
  = match (fxPlay_handler instruments (dataset m) (ab m) (note m)
             (substitutedInstruments m)).2 with
    | Done => (note m + 1) mod 16
    | Fail => note m
    end.
Proof.
  intros Hs. unfold tick.
  destruct (fxPlay_handler _ _ _ _ _) as [calls [|]]; simpl; [|reflexivity].
  rewrite note_fxPlay_done. destruct (decide (note m = 15)) as [->|H15].
  - reflexivity.
  - rewrite Z.mod_small; lia.
Qed.

Lemma note_advances_mod_16_witness :
  0 ≤ note (set_note 15 demo) ≤ 15
  ∧ note (tick kit (set_note 15 demo)).1 = 0.
Proof.
  split; [simpl; lia|].
  exact (note_advances_mod_16 kit (set_note 15 demo) ltac:(simpl; lia)).
Defined.

(** The bank flips at a boundary unless the mode already names the bank. *)
Lemma abToggled_filter_cases mode bank :
  abToggled_filter mode bank
  = match mode, bank with
    | ABMode_a, AB_a | ABMode_b, AB_b => false
    | _, _ => true
    end.
Proof. destruct mode, bank; reflexivity. Qed.

(** C4: at a step-0 boundary ([$note.updates] carrying 0) the new bank is
    [a] exactly when the mode is [a], or [ab] with the old bank [b]; it is
    [b] exactly when the mode is [b], or [ab] with the old bank [a]; and it
    is the old bank exactly when the mode names the old bank and is not
    [ab]. *)
Theorem step0_bank_switch (m : Roland808Model) :
  (ab (note_updates 0 m) = AB_a
   ↔ abMode m = ABMode_a ∨ (abMode m = ABMode_ab ∧ ab m = AB_b))
  ∧ (ab (note_updates 0 m) = AB_b
     ↔ abMode m = ABMode_b ∨ (abMode m = ABMode_ab ∧ ab m = AB_a))
  ∧ (ab (note_updates 0 m) = ab m
     ↔ ABMode_str (abMode m) = AB_str (ab m) ∧ abMode m ≠ ABMode_ab).
Proof.
  unfold note_updates, toggleAB. rewrite abToggled_filter_cases. simpl.
  destruct (abMode m) eqn:Hmode, (ab m) eqn:Hab; simpl; rewrite ?Hab;
    intuition (congruence || discriminate).
Qed.

(** ** The step-trigger cycle *)


(** When every key of the dataset is an instrument, the handler completes
    and plays the entries whose cell at the step is truthy. *)
Lemma fxPlay_handler_plays instruments entries bank n sub :
  (∀ k, k ∈ Obj.keys entries → k ∈ instruments) →
  (fxPlay_handler instruments entries bank n sub).2 = Done
  ∧ ∀ key, Play key ∈ (fxPlay_handler instruments entries bank n sub).1
           ↔ ∃ ds, (key, ds) ∈ entries
                   ∧ truthy (arr ← bank_of ds bank; js_index arr n) = true.
Proof.
  induction entries as [|[k0 ds0] rest IH]; intros Hkeys; simpl.
  - split; [reflexivity|]. intros key. split.
    + intros H. apply elem_of_nil in H. destruct H.
    + intros (ds & H & _). apply elem_of_nil in H. destruct H.
  - destruct IH as [IHdone IHplays].
    { intros k Hk. apply Hkeys. unfold Obj.keys in *. simpl.
      apply elem_of_cons. right. exact Hk. }
    assert (Hk0 : k0 ∈ instruments).
    { apply Hkeys. unfold Obj.keys. simpl. apply elem_of_cons. left.
      reflexivity. }
    destruct (truthy (arr ← bank_of ds0 bank; js_index arr n)) eqn:Ht.
    + rewrite bool_decide_eq_true_2 by exact Hk0.
      destruct (fxPlay_handler instruments rest bank n sub) as [calls o].
      simpl in *. split; [exact IHdone|]. intros key.
      rewrite elem_of_cons, IHplays. split.
      * intros [[= ->]|(ds & Hin & Hds)].
        -- exists ds0. split; [apply elem_of_cons; left; reflexivity|exact Ht].
        -- exists ds. split; [apply elem_of_cons; right; exact Hin|exact Hds].
      * intros (ds & Hin & Hds). apply elem_of_cons in Hin.
        destruct Hin as [[= -> ->]|Hin]; [left; reflexivity|right; eauto].
    + split; [exact IHdone|]. intros key. rewrite IHplays. split.
      * intros (ds & Hin & Hds). exists ds.
        split; [apply elem_of_cons; right; exact Hin|exact Hds].
      * intros (ds & Hin & Hds). apply elem_of_cons in Hin.
        destruct Hin as [[= -> ->]|Hin]; [congruence|eauto].
Qed.




(** ** Clearing *)

(** C3: on the clear button, with the mode [compose] or [play] every
    instrument holds two all-zero banks of 16 steps; with [manualPlay] the
    dataset is unchanged; with any other mode the active instrument holds two
    all-zero banks and every other entry is untouched. *)
Theorem clear_by_mode (instruments : list string) (m : Roland808Model) :
  (currentMode m = "compose" ∨ currentMode m = "play" →
   ∀ key, key ∈ instruments →
     Obj.get (dataset (clearButtonPressed instruments m)) key
     = Some {| ds_a := Some (replicate 16 0); ds_b := Some (replicate 16 0) |})
  ∧ (currentMode m = "manualPlay" →
     dataset (clearButtonPressed instruments m) = dataset m)
  ∧ (currentMode m ∉ ["compose"; "play"; "manualPlay"] →
     Obj.get (dataset (clearButtonPressed instruments m)) (instrument m)
     = Some {| ds_a := Some (replicate 16 0); ds_b := Some (replicate 16 0) |}
     ∧ ∀ key, key ≠ instrument m →
         Obj.get (dataset (clearButtonPressed instruments m)) key
         = Obj.get (dataset m) key).
Proof.
  unfold clearButtonPressed, isOneOf, isNotOneOf. split; [|split].
  - intros Hmode key Hin.
    assert (Hboth : bool_decide (currentMode m ∈ ["compose"; "play"]) = true
                    ∧ bool_decide
                        (currentMode m ∈ ["compose"; "play"; "manualPlay"])
                      = true).
    { destruct Hmode as [->| ->]; split; reflexivity. }
    destruct Hboth as [-> ->]. unfold clearTrack, set_dataset.
    cbn [negb dataset].
    rewrite get_createDataset, bool_decide_eq_true_2 by exact Hin.
    reflexivity.
  - intros ->. reflexivity.
  - intros Hmode. rewrite (bool_decide_eq_false_2 _ Hmode).
    rewrite bool_decide_eq_false_2.
    + simpl. split; [apply get_set_eq|].
      intros key Hne. apply get_set_ne. congruence.
    + intros Hin. apply Hmode. rewrite !elem_of_cons in *. tauto.
Qed.

Lemma clear_by_mode_witness :
  (∀ key, key ∈ kit →
     Obj.get (dataset (clearButtonPressed kit
                         (setCurrentMode "compose" lowTom_substituted))) key
     = Some {| ds_a := Some (replicate 16 0); ds_b := Some (replicate 16 0) |})
  ∧ dataset (clearButtonPressed kit
               (setCurrentMode "manualPlay" lowTom_substituted))
    = dataset lowTom_substituted
  ∧ Obj.get (dataset (clearButtonPressed kit
                        (setCurrentMode "effects" lowTom_substituted)))
      "lowTom"
    = Some {| ds_a := Some (replicate 16 0); ds_b := Some (replicate 16 0) |}.
Proof.
  split; [|split].
  - exact (proj1 (clear_by_mode kit
                    (setCurrentMode "compose" lowTom_substituted))
             (or_introl eq_refl)).
  - exact (proj1 (proj2 (clear_by_mode kit
                           (setCurrentMode "manualPlay" lowTom_substituted)))
             eq_refl).
  - refine (proj1 (proj2 (proj2 (clear_by_mode kit
                      (setCurrentMode "effects" lowTom_substituted))) _)).
    simpl. rewrite !elem_of_cons. intros [H|[H|[H|H]]]; try discriminate H.
    apply elem_of_nil in H. exact H.
Defined.

(** ** Pad toggling and tapping *)

Lemma toggleNumber_binary v :
  v = 0 ∨ v = 1 → toggleNumber v = 0 ∨ toggleNumber v = 1.
Proof. intros [-> | ->]; vm_compute; auto. Qed.

Lemma toggleNumber_involutive v :
  v = 0 ∨ v = 1 → toggleNumber (toggleNumber v) = v.
Proof. intros [-> | ->]; reflexivity. Qed.

(** What a pad toggle does to each cell; nothing when the reducer throws,
    where the selected array, and so the cell, is absent. *)
Lemma cell_toggleActiveInstrumentPad m pad key bank i :
  cell (dataset (toggleActiveInstrumentPad pad m)) key bank i
  = if decide (key = instrument m ∧ bank = ab m ∧ Z.of_nat i = pad)
    then toggleNumber <$> cell (dataset m) key bank i
    else cell (dataset m) key bank i.
Proof.
  unfold toggleActiveInstrumentPad, toggle_reducer. cbn [dataset set_dataset].
  destruct (Obj.get (dataset m) (instrument m)) as [ds|] eqn:Hget; simpl.
  - destruct (bank_of ds (ab m)) as [arr|] eqn:Hbank; simpl.
    + rewrite (cell_rewrite_bank _ _ _ _ _ _ _ _ _ Hget Hbank).
      destruct (decide (instrument m = key ∧ ab m = bank)) as [[<- <-]|Hn].
      * destruct (decide (Z.of_nat i = pad)) as [Hp|Hp].
        -- destruct (decide (_ ∧ _)) as [_|Hn]; [reflexivity|tauto].
        -- destruct (decide (_ ∧ _)) as [Hy|_]; [tauto|].
           destruct (cell _ _ _ _); reflexivity.
      * destruct (decide (_ ∧ _)) as [(-> & -> & _)|_]; [tauto|reflexivity].
    + destruct (decide (_ ∧ _)) as [(-> & -> & _)|_]; [|reflexivity].
      unfold cell. rewrite Hget. simpl. rewrite Hbank. reflexivity.
  - destruct (decide (_ ∧ _)) as [(-> & -> & _)|_]; [|reflexivity].
    unfold cell. rewrite Hget. reflexivity.
Qed.

Lemma cell_tapPressed m key bank i :
  cell (dataset (tapPressed m)) key bank i
  = if decide (key = instrument m ∧ bank = ab m
               ∧ Z.of_nat i = noteAdjusted (note m))
    then (λ _, 1) <$> cell (dataset m) key bank i
    else cell (dataset m) key bank i.
Proof.
  unfold tapPressed, tap_reducer. cbn [dataset set_dataset].
  destruct (Obj.get (dataset m) (instrument m)) as [ds|] eqn:Hget; simpl.
  - destruct (bank_of ds (ab m)) as [arr|] eqn:Hbank; simpl.
    + rewrite (cell_rewrite_bank _ _ _ _ _ _ _ _ _ Hget Hbank).
      destruct (decide (instrument m = key ∧ ab m = bank)) as [[<- <-]|Hn].
      * destruct (decide (Z.of_nat i = noteAdjusted (note m))) as [Hp|Hp].
        -- destruct (decide (_ ∧ _)) as [_|Hn]; [reflexivity|tauto].
        -- destruct (decide (_ ∧ _)) as [Hy|_]; [tauto|].
           destruct (cell _ _ _ _); reflexivity.
      * destruct (decide (_ ∧ _)) as [(-> & -> & _)|_]; [tauto|reflexivity].
    + destruct (decide (_ ∧ _)) as [(-> & -> & _)|_]; [|reflexivity].
      unfold cell. rewrite Hget. simpl. rewrite Hbank. reflexivity.
  - destruct (decide (_ ∧ _)) as [(-> & -> & _)|_]; [|reflexivity].
    unfold cell. rewrite Hget. reflexivity.
Qed.

Lemma cell_wf instruments d key bank i :
  wf_dataset instruments d = true → key ∈ instruments → (i < 16)%nat →
  ∃ v, cell d key bank i = Some v ∧ (v = 0 ∨ v = 1).
Proof.
  intros Hwf Hin Hi.
  destruct (wf_cell instruments d key bank i Hwf Hin Hi)
    as (ds & arr & v & Hget & Hbank & Hv & Hbin).
  exists v. split; [|exact Hbin].
  unfold cell. rewrite Hget. simpl. rewrite Hbank. exact Hv.
Qed.

(** C6: on a well-formed dataset, with the selected instrument one of the
    instruments and a pad [p] in [0,15], one toggle flips the cell at [p] of
    the selected instrument and bank, a second toggle brings it back to its
    original value, and each of the two toggles leaves every other cell of
    every instrument and bank as it was. *)
Theorem toggle_pad_twice (instruments : list string) (m : Roland808Model)
    (p : Z) :
  wf_dataset instruments (dataset m) = true →
  instrument m ∈ instruments →
  0 ≤ p ≤ 15 →
  (∃ v, cell (dataset m) (instrument m) (ab m) (Z.to_nat p) = Some v
        ∧ cell (dataset (toggleActiveInstrumentPad p m))
            (instrument m) (ab m) (Z.to_nat p) = Some (toggleNumber v)
        ∧ cell (dataset (toggleActiveInstrumentPad p
                           (toggleActiveInstrumentPad p m)))
            (instrument m) (ab m) (Z.to_nat p) = Some v)
  ∧ ∀ key bank i,
      ¬ (key = instrument m ∧ bank = ab m ∧ i = Z.to_nat p) →
      cell (dataset (toggleActiveInstrumentPad p m)) key bank i
      = cell (dataset m) key bank i
      ∧ cell (dataset (toggleActiveInstrumentPad p
                         (toggleActiveInstrumentPad p m))) key bank i
        = cell (dataset (toggleActiveInstrumentPad p m)) key bank i.
Proof.
  intros Hwf Hin Hp. split.
  - destruct (cell_wf instruments (dataset m) (instrument m) (ab m)
                (Z.to_nat p) Hwf Hin ltac:(lia)) as (v & Hv & Hbin).
    exists v. split; [exact Hv|].
    rewrite !cell_toggleActiveInstrumentPad. cbn [instrument ab set_dataset
      toggleActiveInstrumentPad].
    destruct (decide (_ ∧ _)) as [_|Hn];
      [|exfalso; apply Hn; repeat split; lia].
    rewrite Hv. simpl. rewrite toggleNumber_involutive by exact Hbin.
    split; reflexivity.
  - intros key bank i Hother.
    rewrite !cell_toggleActiveInstrumentPad. cbn [instrument ab set_dataset
      toggleActiveInstrumentPad].
    destruct (decide (_ ∧ _)) as [(-> & -> & Hi)|_]; [|split; reflexivity].
    exfalso. apply Hother. repeat split. lia.
Qed.

Lemma toggle_pad_twice_witness :
  wf_dataset kit (dataset lowTom_substituted) = true
  ∧ instrument lowTom_substituted ∈ kit
  ∧ 0 ≤ 5 ≤ 15
  ∧ ∃ v, cell (dataset lowTom_substituted) "lowTom" AB_a 5 = Some v
         ∧ cell (dataset (toggleActiveInstrumentPad 5 lowTom_substituted))
             "lowTom" AB_a 5 = Some (toggleNumber v)
         ∧ cell (dataset (toggleActiveInstrumentPad 5
                            (toggleActiveInstrumentPad 5 lowTom_substituted)))
             "lowTom" AB_a 5 = Some v.
Proof.
  assert (Hwf : wf_dataset kit (dataset lowTom_substituted) = true)
    by reflexivity.
  assert (Hin : instrument lowTom_substituted ∈ kit).
  { apply elem_of_cons. right. apply elem_of_cons. right.
    apply elem_of_cons. left. reflexivity. }
  assert (Hp : 0 ≤ 5 ≤ 15) by lia.
  repeat (split; [assumption|]).
  exact (proj1 (toggle_pad_twice kit lowTom_substituted 5 Hwf Hin Hp)).
Defined.

(** C9, as the code has it: [tapPressed] sets the cell at
    [max(step - 1, 0)] of the selected instrument and bank to 1 when the
    selected array has such a cell (cell 0 at step 0, never cell -1); it
    creates no cell where there is none (the instrument or the bank is
    absent, or the array is shorter); and in every case it leaves every
    other cell of every instrument and bank as it was. *)
Theorem tap_sets_previous_step (m : Roland808Model) :
  noteAdjusted (note m) = Z.max (note m - 1) 0
  ∧ cell (dataset (tapPressed m)) (instrument m) (ab m)
      (Z.to_nat (Z.max (note m - 1) 0))
    = match cell (dataset m) (instrument m) (ab m)
              (Z.to_nat (Z.max (note m - 1) 0)) with
      | Some _ => Some 1
      | None => None
      end
  ∧ ∀ key bank i,
      ¬ (key = instrument m ∧ bank = ab m
         ∧ i = Z.to_nat (Z.max (note m - 1) 0)) →
      cell (dataset (tapPressed m)) key bank i = cell (dataset m) key bank i.
Proof.
  split; [apply noteAdjusted_max|]. split.
  - rewrite cell_tapPressed, noteAdjusted_max.
    destruct (decide (_ ∧ _)) as [_|Hno];
      [|exfalso; apply Hno; repeat split; lia].
    destruct (cell _ _ _ _); reflexivity.
  - intros key bank i Hother. rewrite cell_tapPressed, noteAdjusted_max.
    destruct (decide (_ ∧ _)) as [(-> & -> & Hi)|_]; [|reflexivity].
    exfalso. apply Hother. repeat split. lia.
Qed.

(** On a well-formed dataset the tapped cell exists, so it becomes 1. *)
Lemma tap_on_well_formed instruments m :
  wf_dataset instruments (dataset m) = true →
  instrument m ∈ instruments →
  0 ≤ note m ≤ 15 →
  cell (dataset (tapPressed m)) (instrument m) (ab m)
    (Z.to_nat (Z.max (note m - 1) 0)) = Some 1.
Proof.
  intros Hwf Hin Hn.
  destruct (cell_wf instruments (dataset m) (instrument m) (ab m)
              (Z.to_nat (Z.max (note m - 1) 0)) Hwf Hin ltac:(lia))
    as (v & Hv & _).
  rewrite cell_tapPressed, noteAdjusted_max.
  destruct (decide (_ ∧ _)) as [_|Hno];
    [|exfalso; apply Hno; repeat split; lia].
  rewrite Hv. reflexivity.
Qed.

(** C9 fails as stated.  Built with an override that gives the bass drum a
    three-step bank [a] and no bank [b]: after [toggleAB], a tap at step 0
    sets no cell 0 (the reducer throws on the absent bank); and on bank [a]
    after ten ticks, a tap at step 10 sets no cell 9 (the array has three
    cells and is not extended). *)
Lemma tap_without_cell_sets_nothing :
  note tap_on_absent_bank = 0
  ∧ instrument tap_on_absent_bank = "bassDrum"
  ∧ ab tap_on_absent_bank = AB_b
  ∧ cell (dataset (tapPressed tap_on_absent_bank)) "bassDrum" AB_b 0 = None
  ∧ note tap_on_short_bank = 10
  ∧ instrument tap_on_short_bank = "bassDrum"
  ∧ ab tap_on_short_bank = AB_a
  ∧ cell (dataset (tapPressed tap_on_short_bank)) "bassDrum" AB_a 9 = None.
Proof. repeat split. Qed.

(** ** The dataset invariant *)

(** Replacing an entry keeps the invariant when the new entry is complete,
    or when its key is not an instrument. *)
Lemma wf_dataset_set_instrument instruments d key ds :
  wf_dataset instruments d = true →
  (key ∈ instruments → wf_instrument ds = true) →
  wf_dataset instruments (Obj.set d key ds) = true.
Proof.
  rewrite !wf_dataset_spec. intros Hd Hds key' Hin. rewrite get_set.
  destruct (decide (key = key')) as [->|]; eauto.
Qed.

(** Rewriting one bank through a map that keeps cells binary keeps the
    invariant. *)
Lemma wf_dataset_rewrite_bank instruments d key bank ds arr (f : nat → Z → Z) :
  (∀ k v, v = 0 ∨ v = 1 → f k v = 0 ∨ f k v = 1) →
  wf_dataset instruments d = true →
  Obj.get d key = Some ds →
  bank_of ds bank = Some arr →
  wf_dataset instruments (Obj.set d key (with_bank ds bank (imap f arr)))
  = true.
Proof.
  intros Hf Hwf Hget Hbank. apply wf_dataset_set_instrument; [exact Hwf|].
  intros Hin.
  destruct (proj1 (wf_dataset_spec _ _) Hwf key Hin) as (ds' & Hget' & Hds).
  assert (ds' = ds) as -> by congruence.
  apply wf_instrument_with_bank; [exact Hds|].
  apply binary16_imap; [exact Hf|].
  destruct (proj1 (wf_instrument_spec _) Hds bank) as (arr' & Hbank' & Harr).
  congruence.
Qed.

Lemma dataset_fxPlay_done m : dataset (fxPlay_done m) = dataset m.
Proof.
  unfold fxPlay_done, note_updates.
  destruct (decide (_ = note m)); [reflexivity|].
  destruct (_ && _); reflexivity.
Qed.

(** Every event keeps the invariant. *)
Lemma step_preserves_wf instruments m e :
  wf_dataset instruments (dataset m) = true →
  wf_dataset instruments (dataset (step instruments m e).1) = true.
Proof.
  intros Hwf. destruct e; simpl; try exact Hwf.
  - (* toggleActiveInstrumentPad *)
    unfold toggle_reducer.
    destruct (Obj.get (dataset m) (instrument m)) as [ds|] eqn:Hget;
      simpl; [|exact Hwf].
    destruct (bank_of ds (ab m)) as [arr|] eqn:Hbank; simpl; [|exact Hwf].
    apply wf_dataset_rewrite_bank; [|exact Hwf|exact Hget|exact Hbank].
    intros k v Hv. simpl.
    destruct (decide _); [apply toggleNumber_binary|]; exact Hv.
  - (* clearButtonPressed *)
    unfold clearButtonPressed.
    destruct (isOneOf _ _), (isNotOneOf _ _); simpl;
      repeat first [ exact Hwf | apply wf_createDataset
                   | apply wf_dataset_set; [|reflexivity] ].
  - apply wf_createDataset.
  - apply wf_dataset_set; [exact Hwf|reflexivity].
  - (* tapPressed *)
    unfold tap_reducer.
    destruct (Obj.get (dataset m) (instrument m)) as [ds|] eqn:Hget;
      simpl; [|exact Hwf].
    destruct (bank_of ds (ab m)) as [arr|] eqn:Hbank; simpl; [|exact Hwf].
    apply wf_dataset_rewrite_bank; [|exact Hwf|exact Hget|exact Hbank].
    intros k v Hv. simpl. destruct (decide _); auto.
  - destruct warmup; exact Hwf.
  - (* tick *)
    unfold tick. destruct (fxPlay_handler _ _ _ _ _) as [calls [|]]; simpl.
    + rewrite dataset_fxPlay_done. exact Hwf.
    + exact Hwf.
Qed.

Lemma run_preserves_wf instruments es :
  ∀ m, wf_dataset instruments (dataset m) = true →
       wf_dataset instruments (dataset (run instruments m es).1) = true.
Proof.
  induction es as [|e es IH]; intros m Hwf; simpl; [exact Hwf|].
  pose proof (step_preserves_wf instruments m e Hwf) as Hstep.
  destruct (step instruments m e) as [m1 c1]. simpl in Hstep.
  specialize (IH m1 Hstep).
  destruct (run instruments m1 es) as [m2 c2]. exact IH.
Qed.

(** The playback position never leaves [0,15]. *)
Lemma step_note_range instruments m e :
  0 ≤ note m ≤ 15 → 0 ≤ note (step instruments m e).1 ≤ 15.
Proof.
  intros Hn. destruct e; simpl; try exact Hn.
  - unfold clearButtonPressed.
    destruct (isOneOf _ _), (isNotOneOf _ _); exact Hn.
  - destruct warmup; exact Hn.
  - unfold tick. destruct (fxPlay_handler _ _ _ _ _) as [calls [|]]; simpl.
    + rewrite note_fxPlay_done. destruct (decide (note m = 15)); lia.
    + exact Hn.
Qed.

Lemma run_note_range instruments es :
  ∀ m, 0 ≤ note m ≤ 15 → 0 ≤ note (run instruments m es).1 ≤ 15.
Proof.
  induction es as [|e es IH]; intros m Hn; simpl; [exact Hn|].
  pose proof (step_note_range instruments m e Hn) as Hstep.
  destruct (step instruments m e) as [m1 c1]. simpl in Hstep.
  specialize (IH m1 Hstep).
  destruct (run instruments m1 es) as [m2 c2]. exact IH.
Qed.

(** Built without an override, the dataset has the instruments as its keys. *)
Lemma keys_createDataset instruments :
  ∀ k, k ∈ Obj.keys (createDataset instruments None) ↔ k ∈ instruments.
Proof.
  intros k. unfold createDataset. rewrite keys_assign.
  unfold Obj.keys. simpl. rewrite <- list_fmap_compose, elem_of_nil.
  simpl. rewrite list_fmap_id. tauto.
Qed.

(** Two toggles of one pad give back the very dataset. *)
Lemma toggle_pad_twice_dataset instruments m p :
  wf_dataset instruments (dataset m) = true →
  instrument m ∈ instruments →
  dataset (toggleActiveInstrumentPad p (toggleActiveInstrumentPad p m))
  = dataset m.
Proof.
  intros Hwf Hin.
  destruct (proj1 (wf_dataset_spec _ _) Hwf _ Hin) as (ds & Hget & Hds).
  destruct (proj1 (wf_instrument_spec _) Hds (ab m)) as (arr & Hbank & Harr).
  unfold toggleActiveInstrumentPad, toggle_reducer.
  cbn [dataset instrument ab set_dataset].
  rewrite Hget. simpl. rewrite Hbank. simpl.
  rewrite get_set_eq. simpl. rewrite bank_of_with_bank.
  destruct (decide (ab m = ab m)); [|congruence]. simpl.
  rewrite set_set, with_bank_twice.
  rewrite (with_bank_id ds (ab m)); [apply set_get_id; exact Hget|].
  rewrite Hbank. f_equal. apply list_eq. intros i.
  rewrite !list_lookup_imap. destruct (arr !! i) as [v|] eqn:Hv; simpl; auto.
  f_equal. destruct (decide _); [|reflexivity].
  symmetry. apply toggleNumber_involutive.
  apply binary16_spec in Harr. destruct Harr as [_ Hbin]. eauto.
Qed.

(** C7, as the code has it: the dataset built at construction is well formed
    when no override is given, or when every entry of the override is itself
    complete (both banks, 16 steps, binary values); and from any well-formed
    state every sequence of events, among them pad toggles, taps and the two
    clears, leads to a well-formed dataset. *)
Theorem dataset_invariant (instruments : list string)
    (initial : option InstrumentsSetDataset) (m : Roland808Model)
    (es : list Event) :
  from_option (forallb (λ kv, wf_instrument kv.2)) true initial = true →
  wf_dataset instruments (dataset m) = true →
  wf_dataset instruments (createDataset instruments initial) = true
  ∧ wf_dataset instruments (dataset (run instruments m es).1) = true.
Proof.
  intros Hinit Hwf. split; [|apply run_preserves_wf; exact Hwf].
  destruct initial as [init|]; simpl in *; [|apply wf_createDataset].
  apply wf_assign; [apply wf_createDataset|exact Hinit].
Qed.

Lemma dataset_invariant_witness :
  wf_dataset kit (dataset demo) = true
  ∧ wf_dataset kit
      (createDataset kit (Some [("lowTom", createInstrumentDataset)])) = true
  ∧ wf_dataset kit
      (dataset (run kit demo
                  [E_toggleActiveInstrumentPad 3; E_tapPressed; E_tick;
                   E_clearPattern; E_clearTrack]).1) = true.
Proof.
  assert (Hwf : wf_dataset kit (dataset demo) = true) by reflexivity.
  split; [exact Hwf|].
  exact (dataset_invariant kit (Some [("lowTom", createInstrumentDataset)])
           demo
           [E_toggleActiveInstrumentPad 3; E_tapPressed; E_tick;
            E_clearPattern; E_clearTrack]
           eq_refl Hwf).
Defined.

(** C7 fails as stated: built with an override that gives the bass drum a
    three-step bank [a] and no bank [b], the engine starts with a dataset
    that is not well formed. *)
Lemma construction_with_partial_override_ill_formed :
  wf_dataset kit
    (dataset (createRoland808Model kit "play" (Some partial_override)))
  = false
  ∧ Obj.get (dataset (createRoland808Model kit "play" (Some partial_override)))
      "bassDrum"
    = Some {| ds_a := Some [1; 0; 1]; ds_b := None |}.
Proof. split; reflexivity. Qed.

(** ** Derived pad stores *)

(** C10: when the dataset has no entry for the selected instrument, or the
    entry has no selected bank, [activeInstrumentPads] is the array of the
    indices 0 to 15, and [activePadLights] is computed from that array: the
    array itself while stopped, and while running the array with the cell at
    the playback position switched (to 1 at step 0, whose index is falsy,
    to 0 elsewhere). *)
Theorem pads_fall_back_to_indices (m : Roland808Model) :
  Obj.get (dataset m) (instrument m) = None
  ∨ (∃ ds, Obj.get (dataset m) (instrument m) = Some ds
           ∧ bank_of ds (ab m) = None) →
  0 ≤ note m ≤ 15 →
  activeInstrumentPads m
  = [0; 1; 2; 3; 4; 5; 6; 7; 8; 9; 10; 11; 12; 13; 14; 15]
  ∧ activePadLights m
    = if isRunning m
      then <[Z.to_nat (note m) := Some (if decide (note m = 0) then 1 else 0)]>
             (Some <$> [0; 1; 2; 3; 4; 5; 6; 7; 8; 9; 10; 11; 12; 13; 14; 15])
      else Some <$> [0; 1; 2; 3; 4; 5; 6; 7; 8; 9; 10; 11; 12; 13; 14; 15].
Proof.
  intros Habsent Hn.
  assert (Hpads : activeInstrumentPads m
                  = [0; 1; 2; 3; 4; 5; 6; 7; 8; 9; 10; 11; 12; 13; 14; 15]).
  { unfold activeInstrumentPads.
    destruct Habsent as [->|(ds & -> & Hbank)]; simpl; [reflexivity|].
    rewrite Hbank. reflexivity. }
  split; [exact Hpads|].
  unfold activePadLights. rewrite Hpads. unfold padLights.
  destruct (isRunning m); [|reflexivity].
  assert (Hcases : note m = 0 ∨ note m = 1 ∨ note m = 2 ∨ note m = 3
                   ∨ note m = 4 ∨ note m = 5 ∨ note m = 6 ∨ note m = 7
                   ∨ note m = 8 ∨ note m = 9 ∨ note m = 10 ∨ note m = 11
                   ∨ note m = 12 ∨ note m = 13 ∨ note m = 14 ∨ note m = 15)
    by lia.
  repeat (destruct Hcases as [->|Hcases]; [reflexivity|]).
  rewrite Hcases. reflexivity.
Qed.

Lemma pads_fall_back_to_indices_witness :
  (∃ ds, Obj.get (dataset (set_ab AB_b (set_isRunning true
                   (createRoland808Model kit "play" (Some partial_override)))))
           "bassDrum" = Some ds
         ∧ bank_of ds AB_b = None)
  ∧ activePadLights (set_ab AB_b (set_isRunning true
                       (createRoland808Model kit "play"
                          (Some partial_override))))
    = Some <$> [1; 1; 2; 3; 4; 5; 6; 7; 8; 9; 10; 11; 12; 13; 14; 15].
Proof.
  assert (H : ∃ ds, Obj.get (dataset (set_ab AB_b (set_isRunning true
                       (createRoland808Model kit "play"
                          (Some partial_override))))) "bassDrum" = Some ds
                    ∧ bank_of ds AB_b = None).
  { eexists. split; reflexivity. }
  split; [exact H|].
  exact (proj2 (pads_fall_back_to_indices _ (or_intror H)
                  ltac:(simpl; lia))).
Defined.

(** ** Drag controls *)

Section drag.
Local Open Scope Q_scope.

Lemma Qle_bool_false x y : Qle_bool x y = false → y < x.
Proof.
  intros H. apply Qnot_le_lt. intros Hle. apply Qle_bool_iff in Hle. congruence.
Qed.

(** What the range control does for any range with [min <= max]: the value
    handed to the handler lies between 0 and [max - min]. *)
Lemma rangeOnDrag_bounds (lo hi : Q) threshold cache distance :
  lo <= hi →
  0 <= DragManager.rangeOnDrag (lo, hi) threshold cache distance <= hi - lo.
Proof.
  intros Hrange. unfold DragManager.rangeOnDrag. cbn [fst snd].
  set (newValue := inject_Z _).
  destruct (Qle_bool newValue hi) eqn:Hmax; cbn [negb].
  - apply Qle_bool_iff in Hmax.
    destruct (Qle_bool newValue lo) eqn:Hmin.
    + split; lra.
    + apply Qle_bool_false in Hmin. split; lra.
  - split; lra.
Qed.

(** For a range that starts at 0 the value stays in the range. *)
Lemma rangeOnDrag_in_range_from_0 (hi : Q) threshold cache distance :
  0 <= hi →
  0 <= DragManager.rangeOnDrag (0, hi) threshold cache distance <= hi.
Proof.
  intros Hhi.
  pose proof (rangeOnDrag_bounds 0 hi threshold cache distance Hhi). lra.
Qed.

(** The stepped control, whose lower bound is 0, keeps its index in the
    dictionary. *)
Lemma steppedOnDrag_in_dictionary (len : nat) threshold cache distance :
  (0 < len)%nat →
  (0 ≤ DragManager.steppedOnDrag len threshold cache distance
   ≤ Z.of_nat len - 1)%Z.
Proof.
  intros Hlen. unfold DragManager.steppedOnDrag.
  destruct (decide _); [lia|]. destruct (decide _); lia.
Qed.

(** C8 on the code: a control on the range [20,100] whose value at the
    start of the drag is 20, dragged by -350 with the default threshold,
    hands 10 to the handler, below the range; started at 90 and dragged by
    700 it hands over 80, not the upper bound 100. *)
Theorem range_drag_leaves_range :
  DragManager.rangeOnDrag (20, 100) None 20 (-350) == 10
  ∧ ¬ (20 <= DragManager.rangeOnDrag (20, 100) None 20 (-350))
  ∧ DragManager.rangeOnDrag (20, 100) None 90 700 == 80.
Proof.
  split; [reflexivity|]. split; [|reflexivity].
  intros H. vm_compute in H. apply H. reflexivity.
Qed.

End drag.

(** * Further properties of the engine *)

(** ** Objects: keys and overrides *)

Section obj_more.
Context {V : Type}.
Implicit Types (o : list (string * V)) (k : string) (v : V).

Lemma get_is_Some_keys o k : is_Some (Obj.get o k) ↔ k ∈ Obj.keys o.
Proof.
  induction o as [|[k0 v0] o IH]; simpl.
  - change (Obj.keys (V:=V) []) with (@nil string). rewrite elem_of_nil.
    split; [intros [? [=]]|tauto].
  - change (Obj.keys ((k0, v0) :: o)) with (k0 :: Obj.keys o).
    rewrite elem_of_cons. destruct (decide (k0 = k)) as [->|Hne].
    + split; eauto.
    + rewrite IH. split; [tauto|]. intros [?|?]; congruence.
Qed.

Lemma get_None_keys o k : Obj.get o k = None ↔ k ∉ Obj.keys o.
Proof.
  rewrite <- get_is_Some_keys, eq_None_not_Some. reflexivity.
Qed.

(** Writing a key the object has keeps the keys and their order. *)
Lemma keys_set_present o k v :
  k ∈ Obj.keys o → Obj.keys (Obj.set o k v) = Obj.keys o.
Proof.
  induction o as [|[k0 v0] o IH]; simpl.
  - change (Obj.keys (V:=V) []) with (@nil string). rewrite elem_of_nil. tauto.
  - change (Obj.keys ((k0, v0) :: o)) with (k0 :: Obj.keys o).
    rewrite elem_of_cons. intros Hin.
    destruct (decide (k0 = k)) as [->|Hne]; [reflexivity|].
    change (Obj.keys ((k0, v0) :: Obj.set o k v))
      with (k0 :: Obj.keys (Obj.set o k v)).
    rewrite IH; [reflexivity|]. destruct Hin; congruence.
Qed.

Lemma get_assign_NoDup o entries k :
  NoDup (Obj.keys entries) →
  Obj.get (Obj.assign o entries) k
  = match Obj.get entries k with
    | Some v => Some v
    | None => Obj.get o k
    end.
Proof.
  unfold Obj.assign. revert o.
  induction entries as [|[k0 v0] entries IH]; intros o Hnd; simpl.
  - reflexivity.
  - change (Obj.keys ((k0, v0) :: entries)) with (k0 :: Obj.keys entries)
      in Hnd.
    apply NoDup_cons in Hnd. destruct Hnd as [Hk0 Hnd].
    rewrite IH by exact Hnd. destruct (decide (k0 = k)) as [->|Hne].
    + rewrite (proj2 (get_None_keys entries k) Hk0). apply get_set_eq.
    + rewrite get_set_ne by exact Hne. reflexivity.
Qed.

End obj_more.

(** X1: an override given at construction replaces whole entries: a key of
    the override reads as the override's entry as it is (nothing is merged
    in from the default banks), and any other key reads as in the dataset
    built without override. *)
Theorem createDataset_override (instruments : list string)
    (init : InstrumentsSetDataset) (key : string) :
  NoDup (Obj.keys init) →
  Obj.get (createDataset instruments (Some init)) key
  = match Obj.get init key with
    | Some ds => Some ds
    | None => Obj.get (createDataset instruments None) key
    end.
Proof.
  intros Hnd. unfold createDataset. apply get_assign_NoDup. exact Hnd.
Qed.

Lemma createDataset_override_witness :
  NoDup (Obj.keys partial_override)
  ∧ Obj.get (createDataset kit (Some partial_override)) "bassDrum"
    = Some {| ds_a := Some [1; 0; 1]; ds_b := None |}
  ∧ Obj.get (createDataset kit (Some partial_override)) "lowTom"
    = Some createInstrumentDataset.
Proof.
  assert (Hnd : NoDup (Obj.keys partial_override)).
  { apply NoDup_cons. split; [apply not_elem_of_nil|apply NoDup_nil_2]. }
  split; [exact Hnd|]. split.
  - exact (createDataset_override kit partial_override "bassDrum" Hnd).
  - exact (createDataset_override kit partial_override "lowTom" Hnd).
Defined.

(** ** Pad edits *)

(** An index map that changes no cell gives back the array. *)
Lemma imap_id_on (f : nat → Z → Z) (arr : list Z) :
  (∀ i v, arr !! i = Some v → f i v = v) → imap f arr = arr.
Proof.
  intros Hf. apply list_eq. intros i. rewrite list_lookup_imap.
  destruct (arr !! i) as [v|] eqn:Hv; simpl; [|reflexivity].
  rewrite (Hf i v Hv). reflexivity.
Qed.

(** X2: a pad toggle aimed at a cell that does not exist (the selected
    instrument or bank is missing, which makes the reducer throw, or the pad
    index is negative or past the end of the array) leaves the dataset as it
    was: nothing is added and the array is not extended. *)
Theorem toggle_without_cell (m : Roland808Model) (pad : Z) :
  (ds ← Obj.get (dataset m) (instrument m);
   arr ← bank_of ds (ab m); js_index arr pad) = None →
  dataset (toggleActiveInstrumentPad pad m) = dataset m.
Proof.
  unfold toggleActiveInstrumentPad, toggle_reducer. cbn [dataset set_dataset].
  destruct (Obj.get (dataset m) (instrument m)) as [ds|] eqn:Hget; simpl;
    [|reflexivity].
  destruct (bank_of ds (ab m)) as [arr|] eqn:Hbank; simpl; [|reflexivity].
  intros Hcell. rewrite imap_id_on.
  - rewrite (with_bank_id _ _ _ Hbank). apply set_get_id. exact Hget.
  - intros i v Hv. destruct (decide (Z.of_nat i = pad)) as [<-|]; [|reflexivity].
    unfold js_index in Hcell.
    destruct (decide (0 ≤ Z.of_nat i)); [|lia].
    rewrite Nat2Z.id in Hcell. congruence.
Qed.

Lemma toggle_without_cell_witness :
  (ds ← Obj.get (dataset demo) (instrument demo);
   arr ← bank_of ds (ab demo); js_index arr 16) = None
  ∧ dataset (toggleActiveInstrumentPad 16 demo) = dataset demo.
Proof.
  split; [reflexivity|].
  exact (toggle_without_cell demo 16 eq_refl).
Defined.

(** X3: pad toggles commute: toggling pads [p] and [q] in either order gives
    the same model. *)
Theorem toggle_pads_commute (m : Roland808Model) (p q : Z) :
  toggleActiveInstrumentPad p (toggleActiveInstrumentPad q m)
  = toggleActiveInstrumentPad q (toggleActiveInstrumentPad p m).
Proof.
  unfold toggleActiveInstrumentPad, toggle_reducer.
  cbn [dataset instrument ab set_dataset].
  destruct (Obj.get (dataset m) (instrument m)) as [ds|] eqn:Hget; simpl.
  - destruct (bank_of ds (ab m)) as [arr|] eqn:Hbank; simpl.
    + rewrite !get_set_eq. simpl. rewrite !bank_of_with_bank.
      destruct (decide (ab m = ab m)); [|congruence]. simpl.
      rewrite !set_set, !with_bank_twice. unfold set_dataset. simpl.
      do 3 f_equal. apply list_eq. intros i. rewrite !list_lookup_imap.
      destruct (arr !! i) as [v|]; simpl; [|reflexivity].
      destruct (decide (Z.of_nat i = p)), (decide (Z.of_nat i = q));
        reflexivity.
    + rewrite Hget. simpl. rewrite Hbank. reflexivity.
  - rewrite Hget. reflexivity.
Qed.

(** X4: [tapPressed] is idempotent: a second tap at the same step changes
    nothing more. *)
Theorem tapPressed_idempotent (m : Roland808Model) :
  tapPressed (tapPressed m) = tapPressed m.
Proof.
  unfold tapPressed, tap_reducer.
  cbn [dataset instrument ab note set_dataset].
  destruct (Obj.get (dataset m) (instrument m)) as [ds|] eqn:Hget; simpl.
  - destruct (bank_of ds (ab m)) as [arr|] eqn:Hbank; simpl.
    + rewrite !get_set_eq. simpl. rewrite !bank_of_with_bank.
      destruct (decide (ab m = ab m)); [|congruence]. simpl.
      rewrite !set_set, !with_bank_twice. unfold set_dataset. simpl.
      do 3 f_equal. apply list_eq. intros i. rewrite !list_lookup_imap.
      destruct (arr !! i) as [v|]; simpl; [|reflexivity].
      destruct (decide (Z.of_nat i = noteAdjusted (note m))); reflexivity.
    + rewrite Hget. simpl. rewrite Hbank. reflexivity.
  - rewrite Hget. reflexivity.
Qed.

(** ** Reachable states *)

(** X5: whatever the construction parameters and whatever events follow,
    the playback position stays within [0,15]. *)
Theorem note_always_in_range (instruments : list string) (mode : string)
    (init : option InstrumentsSetDataset) (es : list Event) :
  0 ≤ note (run instruments (createRoland808Model instruments mode init) es).1
  ≤ 15.
Proof. apply run_note_range. simpl. lia. Qed.

Lemma keys_fixed_selected instruments m :
  keys_fixed instruments m → instrument m ∈ Obj.keys (dataset m).
Proof. intros [-> Hin]. apply keys_createDataset. exact Hin. Qed.

Lemma keys_store_on_rewrite (d : InstrumentsSetDataset) key bank
    (f : nat → Z → Z) :
  Obj.keys
    (store_on d
       (ds ← Obj.get d key; arr ← bank_of ds bank;
        Some (Obj.set d key (with_bank ds bank (imap f arr)))))
  = Obj.keys d.
Proof.
  destruct (Obj.get d key) as [ds|] eqn:Hget; simpl; [|reflexivity].
  destruct (bank_of ds bank) as [arr|]; simpl; [|reflexivity].
  apply keys_set_present, get_is_Some_keys. rewrite Hget. eauto.
Qed.

Lemma step_keys_fixed instruments m e :
  typed_event instruments e = true →
  keys_fixed instruments m →
  keys_fixed instruments (step instruments m e).1.
Proof.
  intros Ht Hk. pose proof (keys_fixed_selected _ _ Hk) as Hsel.
  destruct Hk as [Hkeys Hin]. unfold keys_fixed.
  destruct e; cbn [step fst typed_event] in *; try (split; assumption).
  - split; [exact Hkeys|]. apply bool_decide_eq_true in Ht. exact Ht.
  - split; [|exact Hin].
    unfold toggleActiveInstrumentPad, toggle_reducer. cbn [dataset set_dataset].
    rewrite keys_store_on_rewrite. exact Hkeys.
  - unfold clearButtonPressed, clearTrack, clearPattern.
    destruct (isOneOf _ _), (isNotOneOf _ _);
      cbn [dataset instrument set_dataset]; split;
      try assumption; try reflexivity.
    + rewrite keys_set_present; [reflexivity|].
      apply keys_createDataset. exact Hin.
    + rewrite keys_set_present; assumption.
  - split; [reflexivity|exact Hin].
  - split; [|exact Hin]. unfold clearPattern. cbn [dataset set_dataset].
    rewrite keys_set_present; assumption.
  - split; [|exact Hin].
    unfold tapPressed, tap_reducer. cbn [dataset set_dataset].
    rewrite keys_store_on_rewrite. exact Hkeys.
  - destruct warmup; split; assumption.
  - unfold tick. destruct (fxPlay_handler _ _ _ _ _) as [calls [|]];
      cbn [fst]; [|split; assumption].
    split.
    + rewrite dataset_fxPlay_done. exact Hkeys.
    + unfold fxPlay_done, note_updates.
      destruct (decide (_ = note m)); [exact Hin|].
      destruct (_ && _); exact Hin.
Qed.

Lemma run_keys_fixed instruments es :
  ∀ m, forallb (typed_event instruments) es = true →
       keys_fixed instruments m →
       keys_fixed instruments (run instruments m es).1.
Proof.
  induction es as [|e es IH]; intros m Ht Hk; simpl in *; [exact Hk|].
  apply andb_true_iff in Ht. destruct Ht as [Hte Htes].
  pose proof (step_keys_fixed instruments m e Hte Hk) as Hstep.
  destruct (step instruments m e) as [m1 c1]. simpl in Hstep.
  specialize (IH m1 Htes Hstep).
  destruct (run instruments m1 es) as [m2 c2]. exact IH.
Qed.

(** The invariants of the engine along [feeds]. *)
Section feeds_invariants.
Variables instruments instrumentsChain : list string.
Hypothesis chain_typed : ∀ k, k ∈ instrumentsChain → k ∈ instruments.

Lemma cycleInstrument_typed m :
  instrument m ∈ instruments →
  instrument (cycleInstrument instrumentsChain m) ∈ instruments.
Proof.
  intros Hin. unfold cycleInstrument. cbn [instrument set_instrument].
  destruct (chain_next instrumentsChain (instrument m)) as [k|] eqn:Hk;
    simpl; [|exact Hin].
  apply chain_typed. unfold chain_next, js_index in Hk.
  destruct (decide (_ ∨ _)); destruct (decide (0 ≤ _)); try discriminate;
    apply list_elem_of_lookup; eauto.
Qed.

Lemma feed_keys_fixed m i :
  typed_input instruments i = true →
  keys_fixed instruments m →
  keys_fixed instruments (feed instruments instrumentsChain m i).1.
Proof.
  destruct i as [e|]; cbn [feed typed_input fst].
  - apply step_keys_fixed.
  - intros _ [Hkeys Hin]. split; [exact Hkeys|].
    apply cycleInstrument_typed. exact Hin.
Qed.

Lemma feeds_keys_fixed l :
  ∀ m, forallb (typed_input instruments) l = true →
       keys_fixed instruments m →
       keys_fixed instruments (feeds instruments instrumentsChain m l).1.
Proof.
  induction l as [|i l IH]; intros m Ht Hk; simpl in *; [exact Hk|].
  apply andb_true_iff in Ht. destruct Ht as [Hti Htl].
  pose proof (feed_keys_fixed m i Hti Hk) as Hstep.
  destruct (feed instruments instrumentsChain m i) as [m1 c1].
  simpl in Hstep. specialize (IH m1 Htl Hstep).
  destruct (feeds instruments instrumentsChain m1 l) as [m2 c2]. exact IH.
Qed.

End feeds_invariants.

Lemma feeds_preserve_wf instruments instrumentsChain l :
  ∀ m, wf_dataset instruments (dataset m) = true →
       wf_dataset instruments
         (dataset (feeds instruments instrumentsChain m l).1) = true.
Proof.
  induction l as [|i l IH]; intros m Hwf; simpl; [exact Hwf|].
  assert (Hstep : wf_dataset instruments
                    (dataset (feed instruments instrumentsChain m i).1)
                  = true).
  { destruct i as [e|]; cbn [feed fst];
      [apply step_preserves_wf|]; exact Hwf. }
  destruct (feed instruments instrumentsChain m i) as [m1 c1].
  simpl in Hstep. specialize (IH m1 Hstep).
  destruct (feeds instruments instrumentsChain m1 l) as [m2 c2]. exact IH.
Qed.

Lemma feeds_note_range instruments instrumentsChain l :
  ∀ m, 0 ≤ note m ≤ 15 →
       0 ≤ note (feeds instruments instrumentsChain m l).1 ≤ 15.
Proof.
  induction l as [|i l IH]; intros m Hn; simpl; [exact Hn|].
  assert (Hstep : 0 ≤ note (feed instruments instrumentsChain m i).1 ≤ 15).
  { destruct i as [e|]; cbn [feed fst];
      [apply step_note_range|]; exact Hn. }
  destruct (feed instruments instrumentsChain m i) as [m1 c1].
  simpl in Hstep. specialize (IH m1 Hstep).
  destruct (feeds instruments instrumentsChain m1 l) as [m2 c2]. exact IH.
Qed.

(** X6: the dataset is never resized.  On a kit that has the bass drum and
    with an instrument chain made of instrument keys, from an engine built
    without override, after any sequence of events and instrument cyclings
    in which every [setInstrument] carries an instrument key, the dataset
    has the keys it was built with, in the same order, it is well formed,
    and the selected instrument is one of the instruments. *)
Theorem dataset_never_resized (instruments instrumentsChain : list string)
    (mode : string) (l : list Input) :
  "bassDrum" ∈ instruments →
  (∀ k, k ∈ instrumentsChain → k ∈ instruments) →
  forallb (typed_input instruments) l = true →
  Obj.keys
    (dataset (feeds instruments instrumentsChain
                (createRoland808Model instruments mode None) l).1)
  = Obj.keys (createDataset instruments None)
  ∧ wf_dataset instruments
      (dataset (feeds instruments instrumentsChain
                  (createRoland808Model instruments mode None) l).1) = true
  ∧ instrument (feeds instruments instrumentsChain
                  (createRoland808Model instruments mode None) l).1
    ∈ instruments.
Proof.
  intros Hbd Hchain Ht.
  destruct (feeds_keys_fixed instruments instrumentsChain Hchain l
              (createRoland808Model instruments mode None) Ht)
    as [Hkeys Hin].
  { split; [reflexivity|exact Hbd]. }
  split; [exact Hkeys|]. split; [|exact Hin].
  apply feeds_preserve_wf. apply wf_createDataset.
Qed.

Lemma dataset_never_resized_witness :
  "bassDrum" ∈ kit
  ∧ (∀ k, k ∈ ["lowTom"; "bassDrum"] → k ∈ kit)
  ∧ Obj.keys
      (dataset (feeds kit ["lowTom"; "bassDrum"] demo
                  [I_event (E_setInstrument "lowTom"); I_cycleInstrument;
                   I_event (E_toggleActiveInstrumentPad 3);
                   I_event E_clearButtonPressed; I_cycleInstrument;
                   I_event E_tapPressed; I_event E_tick]).1)
    = kit.
Proof.
  assert (Hbd : "bassDrum" ∈ kit) by (apply elem_of_cons; left; reflexivity).
  assert (Hchain : ∀ k, k ∈ ["lowTom"; "bassDrum"] → k ∈ kit).
  { intros k Hk. rewrite !elem_of_cons, elem_of_nil in Hk.
    unfold kit. rewrite !elem_of_cons. tauto. }
  split; [exact Hbd|]. split; [exact Hchain|].
  exact (proj1 (dataset_never_resized kit ["lowTom"; "bassDrum"] "play"
                  [I_event (E_setInstrument "lowTom"); I_cycleInstrument;
                   I_event (E_toggleActiveInstrumentPad 3);
                   I_event E_clearButtonPressed; I_cycleInstrument;
                   I_event E_tapPressed; I_event E_tick]
                  Hbd Hchain eq_refl)).
Defined.

(** On a dataset whose keys are instruments a tick completes. *)
Lemma tick_completes instruments m :
  (∀ k, k ∈ Obj.keys (dataset m) → k ∈ instruments) →
  (tick instruments m).1 = fxPlay_done m.
Proof.
  intros Hkeys. unfold tick.
  destruct (fxPlay_handler_plays instruments (dataset m) (ab m) (note m)
              (substitutedInstruments m) Hkeys) as [Hdone _].
  destruct (fxPlay_handler _ _ _ _ _) as [calls o]. simpl in *.
  rewrite Hdone. reflexivity.
Qed.

(** X7: playback never stalls.  On a kit that has the bass drum and with
    an instrument chain made of instrument keys, in any state reached from
    an engine built without override by events and instrument cyclings in
    which every [setInstrument] carries an instrument key, the trigger
    cycle of a tick completes and the step advances by one, wrapping at
    15. *)
Theorem tick_never_stalls (instruments instrumentsChain : list string)
    (mode : string) (l : list Input) :
  "bassDrum" ∈ instruments →
  (∀ k, k ∈ instrumentsChain → k ∈ instruments) →
  forallb (typed_input instruments) l = true →
  (fxPlay_handler instruments
     (dataset (feeds instruments instrumentsChain
                 (createRoland808Model instruments mode None) l).1)
     (ab (feeds instruments instrumentsChain
            (createRoland808Model instruments mode None) l).1)
     (note (feeds instruments instrumentsChain
              (createRoland808Model instruments mode None) l).1)
     (substitutedInstruments
        (feeds instruments instrumentsChain
           (createRoland808Model instruments mode None) l).1)).2
  = Done
  ∧ note (tick instruments
            (feeds instruments instrumentsChain
               (createRoland808Model instruments mode None) l).1).1
    = (note (feeds instruments instrumentsChain
               (createRoland808Model instruments mode None) l).1 + 1) mod 16.
Proof.
  intros Hbd Hchain Ht.
  pose proof (feeds_keys_fixed instruments instrumentsChain Hchain l
                (createRoland808Model instruments mode None) Ht
                (conj eq_refl Hbd)) as [Hkeys _].
  pose proof (feeds_note_range instruments instrumentsChain l
                (createRoland808Model instruments mode None)
                ltac:(simpl; lia)) as Hn.
  set (m := (feeds instruments instrumentsChain
               (createRoland808Model instruments mode None) l).1) in *.
  assert (Hsub : ∀ k, k ∈ Obj.keys (dataset m) → k ∈ instruments).
  { intros k. rewrite Hkeys. apply keys_createDataset. }
  split.
  - apply fxPlay_handler_plays. exact Hsub.
  - rewrite tick_completes by exact Hsub. rewrite note_fxPlay_done.
    destruct (decide (note m = 15)) as [->|]; [reflexivity|].
    rewrite Z.mod_small; lia.
Qed.

Lemma tick_never_stalls_witness :
  "bassDrum" ∈ kit
  ∧ (∀ k, k ∈ ["lowTom"; "bassDrum"] → k ∈ kit)
  ∧ note (tick kit
            (feeds kit ["lowTom"; "bassDrum"] demo
               [I_cycleInstrument; I_event (E_toggleActiveInstrumentPad 0);
                I_event E_tick; I_event E_tick]).1).1
    = 3.
Proof.
  assert (Hbd : "bassDrum" ∈ kit) by (apply elem_of_cons; left; reflexivity).
  assert (Hchain : ∀ k, k ∈ ["lowTom"; "bassDrum"] → k ∈ kit).
  { intros k Hk. rewrite !elem_of_cons, elem_of_nil in Hk.
    unfold kit. rewrite !elem_of_cons. tauto. }
  split; [exact Hbd|]. split; [exact Hchain|].
  exact (proj2 (tick_never_stalls kit ["lowTom"; "bassDrum"] "play"
                  [I_cycleInstrument; I_event (E_toggleActiveInstrumentPad 0);
                   I_event E_tick; I_event E_tick]
                  Hbd Hchain eq_refl)).
Defined.

(** ** Ticks *)

Lemma fxPlay_handler_calls instruments entries bank n sub :
  ∀ c, c ∈ (fxPlay_handler instruments entries bank n sub).1 →
       ∃ key, c = Play key ∧ key ∈ Obj.keys entries ∧ key ∈ instruments.
Proof.
  induction entries as [|[k0 ds0] rest IH]; simpl; intros c Hc.
  - apply elem_of_nil in Hc. destruct Hc.
  - change (Obj.keys ((k0, ds0) :: rest)) with (k0 :: Obj.keys rest).
    destruct (truthy _).
    + destruct (bool_decide_reflect (k0 ∈ instruments)) as [Hk0|_].
      * destruct (fxPlay_handler instruments rest bank n sub) as [calls o].
        simpl in *. apply elem_of_cons in Hc. destruct Hc as [->|Hc].
        -- exists k0. split; [reflexivity|].
           split; [apply elem_of_cons; left; reflexivity|exact Hk0].
        -- destruct (IH c Hc) as (key & -> & Hkey & Hin). exists key.
           split; [reflexivity|].
           split; [apply elem_of_cons; right; exact Hkey|exact Hin].
      * apply elem_of_nil in Hc. destruct Hc.
    + destruct (IH c Hc) as (key & -> & Hkey & Hin). exists key.
      split; [reflexivity|].
      split; [apply elem_of_cons; right; exact Hkey|exact Hin].
Qed.

(** X8: a tick touches only the step and the bank.  The dataset, the mode,
    the bank mode, the selected instrument, the running flag and the
    tumblers are as before, and every call it makes is a [play()] on a key
    of the dataset that is an instrument. *)
Theorem tick_frame (instruments : list string) (m : Roland808Model) :
  dataset (tick instruments m).1 = dataset m
  ∧ currentMode (tick instruments m).1 = currentMode m
  ∧ abMode (tick instruments m).1 = abMode m
  ∧ instrument (tick instruments m).1 = instrument m
  ∧ isRunning (tick instruments m).1 = isRunning m
  ∧ substitutedInstruments (tick instruments m).1 = substitutedInstruments m
  ∧ ∀ c, c ∈ (tick instruments m).2 →
         ∃ key, c = Play key ∧ key ∈ Obj.keys (dataset m)
                ∧ key ∈ instruments.
Proof.
  unfold tick.
  pose proof (fxPlay_handler_calls instruments (dataset m) (ab m) (note m)
                (substitutedInstruments m)) as Hcalls.
  destruct (fxPlay_handler _ _ _ _ _) as [calls [|]]; cbn [fst snd] in *.
  - unfold fxPlay_done, note_updates.
    destruct (decide (_ = note m)); [repeat split; exact Hcalls|].
    destruct (_ && _); repeat split; exact Hcalls.
  - repeat split; exact Hcalls.
Qed.




Lemma fxPlay_handler_app instruments pre rest bank n sub :
  fxPlay_handler instruments (pre ++ rest) bank n sub
  = match (fxPlay_handler instruments pre bank n sub).2 with
    | Done =>
        ((fxPlay_handler instruments pre bank n sub).1
           ++ (fxPlay_handler instruments rest bank n sub).1,
         (fxPlay_handler instruments rest bank n sub).2)
    | Fail => ((fxPlay_handler instruments pre bank n sub).1, Fail)
    end.
Proof.
  induction pre as [|[k0 ds0] pre IH]; simpl.
  - destruct (fxPlay_handler instruments rest bank n sub); reflexivity.
  - destruct (truthy _); [|exact IH].
    destruct (bool_decide (k0 ∈ instruments)); [|reflexivity].
    rewrite IH.
    destruct (fxPlay_handler instruments pre bank n sub) as [c1 [|]];
      reflexivity.
Qed.

(** X10: a dataset entry whose key is not an instrument stalls playback.
    When such an entry has a truthy cell at the current step, and the
    entries before it are instruments, the tick plays only the entries
    before it, fails, and leaves the whole model, the step included, as it
    was: every later tick meets the same state. *)
Theorem tick_stalls_on_unknown_key (instruments : list string)
    (m : Roland808Model) (pre post : InstrumentsSetDataset) (key : string)
    (ds : InstrumentDataset) :
  dataset m = pre ++ (key, ds) :: post →
  (∀ k, k ∈ Obj.keys pre → k ∈ instruments) →
  key ∉ instruments →
  truthy (arr ← bank_of ds (ab m); js_index arr (note m)) = true →
  (tick instruments m).1 = m
  ∧ ∀ k, Play k ∈ (tick instruments m).2
         ↔ ∃ ds', (k, ds') ∈ pre
                  ∧ truthy (arr ← bank_of ds' (ab m); js_index arr (note m))
                    = true.
Proof.
  intros Hd Hpre Hkey Ht. unfold tick. rewrite Hd, fxPlay_handler_app.
  destruct (fxPlay_handler_plays instruments pre (ab m) (note m)
              (substitutedInstruments m) Hpre) as [Hdone Hplays].
  rewrite Hdone. cbn [fxPlay_handler]. rewrite Ht.
  rewrite bool_decide_eq_false_2 by exact Hkey. cbn [fst snd].
  rewrite app_nil_r. split; [reflexivity|exact Hplays].
Qed.

Lemma tick_stalls_on_unknown_key_witness :
  dataset stray_cowBell
  = dataset demo
    ++ [("cowBell",
         {| ds_a := Some (1 :: replicate 15 0);
            ds_b := Some (replicate 16 0) |})]
  ∧ ("cowBell" ∉ kit)
  ∧ (tick kit stray_cowBell).1 = stray_cowBell
  ∧ (tick kit stray_cowBell).2 = [].
Proof.
  assert (Hd : dataset stray_cowBell
               = dataset demo
                 ++ ("cowBell",
                     {| ds_a := Some (1 :: replicate 15 0);
                        ds_b := Some (replicate 16 0) |}) :: [])
    by reflexivity.
  assert (Hnot : "cowBell" ∉ kit).
  { unfold kit. rewrite !elem_of_cons, elem_of_nil.
    intros [H|[H|[H|H]]]; [discriminate H..|exact H]. }
  split; [exact Hd|]. split; [exact Hnot|].
  split; [|reflexivity].
  exact (proj1 (tick_stalls_on_unknown_key kit stray_cowBell (dataset demo) []
                  "cowBell" _ Hd (λ k Hk, Hk) Hnot eq_refl)).
Defined.

(** ** Banks *)

(** X11: [cycleABModes] takes the bank mode from [a] to [ab], from [ab]
    to [b] and from [b] to [a], so three steps come back to the start;
    [toggleAB] swaps the bank, so two steps come back; and a single step of
    either leaves every other store (for [cycleABModes] the bank too, for
    [toggleAB] the bank mode too) as it was. *)
Theorem bank_cycles (m : Roland808Model) :
  abMode (cycleABModes m)
  = match abMode m with
    | ABMode_a => ABMode_ab
    | ABMode_ab => ABMode_b
    | ABMode_b => ABMode_a
    end
  ∧ ab (toggleAB m) = match ab m with AB_a => AB_b | AB_b => AB_a end
  ∧ cycleABModes (cycleABModes (cycleABModes m)) = m
  ∧ toggleAB (toggleAB m) = m
  ∧ (ab (cycleABModes m) = ab m
     ∧ currentMode (cycleABModes m) = currentMode m
     ∧ instrument (cycleABModes m) = instrument m
     ∧ dataset (cycleABModes m) = dataset m
     ∧ note (cycleABModes m) = note m
     ∧ isRunning (cycleABModes m) = isRunning m
     ∧ substitutedInstruments (cycleABModes m) = substitutedInstruments m)
  ∧ (abMode (toggleAB m) = abMode m
     ∧ currentMode (toggleAB m) = currentMode m
     ∧ instrument (toggleAB m) = instrument m
     ∧ dataset (toggleAB m) = dataset m
     ∧ note (toggleAB m) = note m
     ∧ isRunning (toggleAB m) = isRunning m
     ∧ substitutedInstruments (toggleAB m) = substitutedInstruments m).
Proof.
  destruct m as [mode ins bmode bank d n run low mid hi rim clap].
  destruct bmode, bank; repeat split.
Qed.

(** ** Pad lights *)

(** X12: on a well-formed dataset with the selected instrument among the
    instruments and the step in [0,15], [activePadLights] has 16 cells; it
    shows the selected bank as it is, except that while the transport runs
    the cell at the playback position is inverted. *)
Theorem activePadLights_blink (instruments : list string)
    (m : Roland808Model) :
  wf_dataset instruments (dataset m) = true →
  instrument m ∈ instruments →
  0 ≤ note m ≤ 15 →
  length (activePadLights m) = 16%nat
  ∧ ∀ i v, cell (dataset m) (instrument m) (ab m) i = Some v →
      (activePadLights m) !! i
      = Some (Some (if isRunning m && bool_decide (Z.of_nat i = note m)
                    then toggleNumber v else v)).
Proof.
  intros Hwf Hin Hn.
  destruct (proj1 (wf_dataset_spec _ _) Hwf _ Hin) as (ds & Hget & Hds).
  destruct (proj1 (wf_instrument_spec _) Hds (ab m)) as (arr & Hbank & Harr).
  apply binary16_spec in Harr. destruct Harr as [Hlen _].
  assert (Hpads : activeInstrumentPads m = arr).
  { unfold activeInstrumentPads. rewrite Hget. simpl. rewrite Hbank.
    reflexivity. }
  unfold activePadLights, padLights, cell. rewrite Hpads, Hget. simpl.
  rewrite Hbank. simpl.
  destruct (isRunning m); simpl.
  - unfold js_array_write, js_index.
    destruct (decide (note m < 0)); [lia|].
    destruct (decide (0 ≤ note m)); [|lia].
    rewrite length_fmap.
    destruct (decide (Z.to_nat (note m) < length arr)%nat); [|lia].
    rewrite length_insert, length_fmap. split; [exact Hlen|].
    intros i v Hv.
    destruct (bool_decide_reflect (Z.of_nat i = note m)) as [Hi|Hi].
    + rewrite <- Hi, Nat2Z.id.
      rewrite list_lookup_insert_eq by (rewrite length_fmap; lia).
      rewrite list_lookup_fmap, Hv. simpl. unfold toggleNumber.
      destruct (v =? 0); reflexivity.
    + rewrite list_lookup_insert_ne by lia.
      rewrite list_lookup_fmap, Hv. reflexivity.
  - rewrite length_fmap. split; [exact Hlen|].
    intros i v Hv. rewrite list_lookup_fmap, Hv. reflexivity.
Qed.

Lemma activePadLights_blink_witness :
  wf_dataset kit (dataset (set_isRunning true lowTom_substituted)) = true
  ∧ instrument (set_isRunning true lowTom_substituted) ∈ kit
  ∧ 0 ≤ note (set_isRunning true lowTom_substituted) ≤ 15
  ∧ (activePadLights (set_isRunning true lowTom_substituted)) !! 0%nat
    = Some (Some 0).
Proof.
  assert (Hwf : wf_dataset kit (dataset (set_isRunning true lowTom_substituted))
                = true) by reflexivity.
  assert (Hin : instrument (set_isRunning true lowTom_substituted) ∈ kit).
  { apply elem_of_cons. right. apply elem_of_cons. right.
    apply elem_of_cons. left. reflexivity. }
  assert (Hn : 0 ≤ note (set_isRunning true lowTom_substituted) ≤ 15)
    by (simpl; lia).
  repeat (split; [assumption|]).
  exact (proj2 (activePadLights_blink kit _ Hwf Hin Hn) 0%nat 1 eq_refl).
Defined.

(** ** Chains *)

Section chains.
Context {A : Type} `{EqDecision A}.
Implicit Types (chain : list A) (x y : A).

(** [indexOf] is -1 for a value the chain does not hold, and otherwise the
    first position of the value. *)
Lemma indexOf_spec chain x :
  (indexOf chain x = -1 ∧ x ∉ chain)
  ∨ ∃ i, indexOf chain x = Z.of_nat i ∧ chain !! i = Some x.
Proof.
  induction chain as [|y rest IH]; simpl.
  - left. split; [reflexivity|apply not_elem_of_nil].
  - destruct (decide (y = x)) as [->|Hne].
    + right. exists 0%nat. split; reflexivity.
    + destruct IH as [[Hidx Hnin]|(i & Hidx & Hi)].
      * left. rewrite Hidx. destruct (decide (-1 = -1)); [|congruence].
        split; [reflexivity|]. rewrite elem_of_cons. intros [?|?]; congruence.
      * right. exists (S i). rewrite Hidx.
        destruct (decide (Z.of_nat i = -1)); [lia|].
        split; [lia|exact Hi].
Qed.

Lemma indexOf_NoDup chain x i :
  NoDup chain → chain !! i = Some x → indexOf chain x = Z.of_nat i.
Proof.
  intros Hnd Hi. destruct (indexOf_spec chain x) as [[_ Hnin]|(j & Hj & Hx)].
  - exfalso. apply Hnin. apply list_elem_of_lookup. eauto.
  - rewrite Hj. f_equal. exact (NoDup_lookup chain j i x Hnd Hx Hi).
Qed.

(** The successor of the element at position [i] of a chain without
    repetition is the element at [i + 1], and the first for the last. *)
Lemma chain_next_lookup chain x i :
  NoDup chain → chain !! i = Some x →
  chain_next chain x = chain !! ((i + 1) mod length chain)%nat.
Proof.
  intros Hnd Hi. unfold chain_next. rewrite (indexOf_NoDup chain x i Hnd Hi).
  pose proof (lookup_lt_Some chain i x Hi) as Hlt.
  destruct (decide (_ ∨ _)) as [[Hm|Hlast]|Hmid].
  - lia.
  - replace (i + 1)%nat with (length chain) by lia.
    rewrite Nat.Div0.mod_same. reflexivity.
  - rewrite Nat.mod_small by lia. unfold js_index.
    destruct (decide (0 ≤ Z.of_nat i + 1)); [|lia].
    f_equal. lia.
Qed.

Lemma chain_next_unknown chain x :
  x ∉ chain → chain_next chain x = head chain.
Proof.
  intros Hnin. unfold chain_next.
  destruct (indexOf_spec chain x) as [[-> _]|(i & _ & Hi)].
  - destruct (decide (_ ∨ _)) as [_|Hn]; [|tauto].
    destruct chain; reflexivity.
  - exfalso. apply Hnin. apply list_elem_of_lookup. eauto.
Qed.

Lemma chain_next_member chain x y :
  chain_next chain x = Some y → y ∈ chain.
Proof.
  unfold chain_next, js_index. intros Hy.
  destruct (decide (_ ∨ _)); destruct (decide (0 ≤ _)); try discriminate;
    apply list_elem_of_lookup; eauto.
Qed.

Lemma chain_next_is_Some chain x : chain ≠ [] → is_Some (chain_next chain x).
Proof.
  intros Hne. unfold chain_next.
  destruct (indexOf_spec chain x) as [[-> _]|(i & -> & Hi)].
  - destruct (decide (_ ∨ _)) as [_|Hn]; [|tauto].
    destruct chain; [congruence|]. eexists. reflexivity.
  - pose proof (lookup_lt_Some chain i x Hi) as Hlt.
    destruct (decide (_ ∨ _)) as [_|Hn].
    + destruct chain; [congruence|]. eexists. reflexivity.
    + unfold js_index. destruct (decide (0 ≤ Z.of_nat i + 1)); [|lia].
      apply lookup_lt_is_Some. lia.
Qed.

(** Iterating the successor from position [i] walks the chain modulo its
    length. *)
Lemma chain_walk chain x i k :
  NoDup chain → chain !! i = Some x →
  chain !! ((i + k) mod length chain)%nat
  = Some (Nat.iter k (λ v, store_on v (chain_next chain v)) x).
Proof.
  intros Hnd Hi. pose proof (lookup_lt_Some chain i x Hi) as Hlt.
  induction k as [|k IH].
  - rewrite Nat.add_0_r, Nat.mod_small by lia. exact Hi.
  - rewrite Nat.iter_succ. set (y := Nat.iter k _ x) in *. cbv beta.
    rewrite (chain_next_lookup chain y _ Hnd IH).
    rewrite Nat.Div0.add_mod_idemp_l.
    replace (i + k + 1)%nat with (i + S k)%nat by lia.
    destruct (lookup_lt_is_Some_2 chain ((i + S k) mod length chain)) as [z Hz].
    { apply Nat.mod_upper_bound. lia. }
    rewrite Hz. reflexivity.
Qed.

End chains.

(** X13: cycling never leaves the chain.  On a chain that is not empty
    [cycleInstrument] selects an instrument of the chain and [cycleBPM]
    gives a tempo of the table, whatever the current value, and a current
    value the chain does not hold goes to the first element. *)
Theorem cycling_stays_in_chain (instrumentsChain : list string) (BPM : list Z)
    (m : Roland808Model) (bpm : Z) :
  instrumentsChain ≠ [] →
  BPM ≠ [] →
  instrument (cycleInstrument instrumentsChain m) ∈ instrumentsChain
  ∧ cycleBPM BPM bpm ∈ BPM
  ∧ (instrument m ∉ instrumentsChain →
     head instrumentsChain = Some (instrument (cycleInstrument instrumentsChain m)))
  ∧ (bpm ∉ BPM → head BPM = Some (cycleBPM BPM bpm)).
Proof.
  intros Hi Hb. unfold cycleInstrument, cycleBPM. cbn [instrument set_instrument].
  destruct (chain_next_is_Some instrumentsChain (instrument m) Hi) as [k Hk].
  destruct (chain_next_is_Some BPM bpm Hb) as [b' Hb'].
  rewrite Hk, Hb'. simpl.
  split; [exact (chain_next_member _ _ _ Hk)|].
  split; [exact (chain_next_member _ _ _ Hb')|].
  split; intros Hnin.
  - rewrite <- Hk. symmetry. apply chain_next_unknown. exact Hnin.
  - rewrite <- Hb'. symmetry. apply chain_next_unknown. exact Hnin.
Qed.

Lemma cycling_stays_in_chain_witness :
  kit ≠ []
  ∧ [60; 90; 120] ≠ []
  ∧ instrument (cycleInstrument kit (setInstrument "cowBell" demo)) = "bassDrum"
  ∧ cycleBPM [60; 90; 120] 100 = 60.
Proof.
  assert (H1 : kit ≠ []) by discriminate.
  assert (H2 : [60; 90; 120] ≠ []) by discriminate.
  split; [exact H1|]. split; [exact H2|].
  pose proof (cycling_stays_in_chain kit [60; 90; 120]
                (setInstrument "cowBell" demo) 100 H1 H2)
    as (_ & _ & Hins & Hbpm).
  split.
  - assert (Hn : instrument (setInstrument "cowBell" demo) ∉ kit).
    { unfold kit. rewrite !elem_of_cons, elem_of_nil.
      intros [H|[H|[H|H]]]; [discriminate H..|exact H]. }
    symmetry. exact (f_equal (default "") (Hins Hn)).
  - assert (Hn : 100 ∉ [60; 90; 120]).
    { rewrite !elem_of_cons, elem_of_nil.
      intros [H|[H|[H|H]]]; [discriminate H..|exact H]. }
    symmetry. exact (f_equal (default 0) (Hbpm Hn)).
Defined.

(** X14: on a chain without repetition, cycling from the element at
    position [i] gives the element at position [i + 1], and from the last
    element the first. *)
Theorem cycling_advances_and_wraps (instrumentsChain : list string)
    (BPM : list Z) (m : Roland808Model) (bpm : Z) (i j : nat) :
  NoDup instrumentsChain →
  NoDup BPM →
  instrumentsChain !! i = Some (instrument m) →
  BPM !! j = Some bpm →
  instrumentsChain !! ((i + 1) mod length instrumentsChain)%nat
  = Some (instrument (cycleInstrument instrumentsChain m))
  ∧ BPM !! ((j + 1) mod length BPM)%nat = Some (cycleBPM BPM bpm).
Proof.
  intros Hnd1 Hnd2 Hi Hj. unfold cycleInstrument, cycleBPM.
  cbn [instrument set_instrument]. split.
  - exact (chain_walk instrumentsChain (instrument m) i 1 Hnd1 Hi).
  - exact (chain_walk BPM bpm j 1 Hnd2 Hj).
Qed.

(** X15: on a chain without repetition, cycling as many times as the chain
    is long, from a value of the chain, comes back to that value. *)
Theorem cycling_period (instrumentsChain : list string) (BPM : list Z)
    (m : Roland808Model) (bpm : Z) :
  NoDup instrumentsChain →
  NoDup BPM →
  instrument m ∈ instrumentsChain →
  bpm ∈ BPM →
  instrument (Nat.iter (length instrumentsChain)
                (cycleInstrument instrumentsChain) m) = instrument m
  ∧ Nat.iter (length BPM) (cycleBPM BPM) bpm = bpm.
Proof.
  intros Hnd1 Hnd2 Hin1 Hin2. split.
  - apply list_elem_of_lookup in Hin1. destruct Hin1 as [i Hi].
    pose proof (chain_walk instrumentsChain (instrument m) i
                  (length instrumentsChain) Hnd1 Hi) as Hw.
    pose proof (lookup_lt_Some _ _ _ Hi) as Hlt.
    replace ((i + length instrumentsChain) mod length instrumentsChain)%nat
      with i in Hw.
    2:{ rewrite <- Nat.Div0.add_mod_idemp_r, Nat.Div0.mod_same, Nat.add_0_r.
        symmetry. apply Nat.mod_small. exact Hlt. }
    assert (Hiter : ∀ k, instrument (Nat.iter k (cycleInstrument instrumentsChain) m)
                         = Nat.iter k (λ v, store_on v
                                         (chain_next instrumentsChain v))
                             (instrument m)).
    { induction k as [|k IHk]; [reflexivity|].
      rewrite !Nat.iter_succ. unfold cycleInstrument at 1.
      cbn [instrument set_instrument]. rewrite IHk. reflexivity. }
    rewrite Hiter. congruence.
  - apply list_elem_of_lookup in Hin2. destruct Hin2 as [j Hj].
    pose proof (chain_walk BPM bpm j (length BPM) Hnd2 Hj) as Hw.
    pose proof (lookup_lt_Some _ _ _ Hj) as Hlt.
    replace ((j + length BPM) mod length BPM)%nat with j in Hw.
    2:{ rewrite <- Nat.Div0.add_mod_idemp_r, Nat.Div0.mod_same, Nat.add_0_r.
        symmetry. apply Nat.mod_small. exact Hlt. }
    unfold cycleBPM. congruence.
Qed.

Lemma cycling_advances_and_wraps_witness :
  NoDup kit
  ∧ NoDup [60; 90; 120]
  ∧ kit !! 2%nat = Some (instrument (setInstrument "lowTom" demo))
  ∧ [60; 90; 120] !! 0%nat = Some 60
  ∧ instrument (cycleInstrument kit (setInstrument "lowTom" demo)) = "bassDrum"
  ∧ cycleBPM [60; 90; 120] 60 = 90.
Proof.
  assert (H1 : NoDup kit) by exact (bool_decide_unpack (NoDup kit) I).
  assert (H2 : NoDup [60; 90; 120])
    by exact (bool_decide_unpack (NoDup [60; 90; 120]) I).
  split; [exact H1|]. split; [exact H2|].
  split; [reflexivity|]. split; [reflexivity|].
  pose proof (cycling_advances_and_wraps kit [60; 90; 120]
                (setInstrument "lowTom" demo) 60 2 0 H1 H2 eq_refl eq_refl)
    as [Hins Hbpm].
  split.
  - symmetry. exact (f_equal (default "") Hins).
  - symmetry. exact (f_equal (default 0) Hbpm).
Defined.

Lemma cycling_period_witness :
  NoDup kit
  ∧ NoDup [60; 90; 120]
  ∧ instrument (setInstrument "snareDrum" demo) ∈ kit
  ∧ 90 ∈ [60; 90; 120]
  ∧ instrument (Nat.iter 3 (cycleInstrument kit)
                  (setInstrument "snareDrum" demo)) = "snareDrum"
  ∧ Nat.iter 3 (cycleBPM [60; 90; 120]) 90 = 90.
Proof.
  assert (H1 : NoDup kit) by exact (bool_decide_unpack (NoDup kit) I).
  assert (H2 : NoDup [60; 90; 120])
    by exact (bool_decide_unpack (NoDup [60; 90; 120]) I).
  assert (H3 : instrument (setInstrument "snareDrum" demo) ∈ kit).
  { apply elem_of_cons. right. apply elem_of_cons. left. reflexivity. }
  assert (H4 : 90 ∈ [60; 90; 120]).
  { apply elem_of_cons. right. apply elem_of_cons. left. reflexivity. }
  repeat (split; [assumption|]).
  exact (cycling_period kit [60; 90; 120] (setInstrument "snareDrum" demo) 90
           H1 H2 H3 H4).
Defined.

(** * Further properties of the drag manager *)

Section drag_more.
Local Open Scope Q_scope.

Lemma Math_round_integer (q : Q) (z : Z) :
  q == inject_Z z → DragManager.Math_round q = z.
Proof.
  intros Hq. unfold DragManager.Math_round. rewrite Hq.
  unfold Qfloor, Qplus, inject_Z. simpl.
  symmetry. apply (Z.div_unique _ _ _ 1%Z); lia.
Qed.

Lemma threshold_or_35_pos threshold :
  (∀ t, threshold = Some t → 0 <= t) →
  0 < DragManager.threshold_or_35 threshold.
Proof.
  intros Ht. unfold DragManager.threshold_or_35.
  destruct threshold as [t|]; [|reflexivity].
  destruct (Qeq_bool t 0) eqn:Hz; [reflexivity|].
  apply Qeq_bool_neq in Hz. specialize (Ht t eq_refl).
  apply Qle_lt_or_eq in Ht. destruct Ht as [Hlt|Heq]; [exact Hlt|].
  exfalso. apply Hz. symmetry. exact Heq.
Qed.

(** The rounded offset falls as the pointer moves right. *)
Lemma newValue_antitone (base cache t d1 d2 : Q) :
  0 < t → d1 <= d2 →
  (DragManager.Math_round (base - cache - d2 / t)
   ≤ DragManager.Math_round (base - cache - d1 / t))%Z.
Proof.
  intros Ht Hd. unfold DragManager.Math_round. apply Qfloor_resp_le.
  assert (Hdiv : d1 / t <= d2 / t).
  { unfold Qdiv. apply Qmult_le_compat_r; [exact Hd|].
    apply Qinv_le_0_compat, Qlt_le_weak. exact Ht. }
  lra.
Qed.

(** X18: a stepped control started at the index [c] of its dictionary and
    not dragged at all reports the index [c]. *)
Theorem stepped_drag_of_zero (len : nat) (threshold : option Q) (c : Z) :
  (0 ≤ c ≤ Z.of_nat len - 1)%Z →
  DragManager.steppedOnDrag len threshold (inject_Z c) 0 = c.
Proof.
  intros Hc. unfold DragManager.steppedOnDrag.
  rewrite (Math_round_integer _ (Z.of_nat len - 1 - c)).
  - destruct (decide _); [lia|]. destruct (decide _); lia.
  - unfold Z.sub. rewrite !inject_Z_plus, !inject_Z_opp.
    unfold Qdiv. ring.
Qed.

Lemma stepped_drag_of_zero_witness :
  (0 ≤ 2 ≤ Z.of_nat 5 - 1)%Z
  ∧ DragManager.steppedOnDrag 5 None (inject_Z 2) 0 = 2%Z.
Proof.
  assert (H : (0 ≤ 2 ≤ Z.of_nat 5 - 1)%Z) by (simpl; lia).
  split; [exact H|]. exact (stepped_drag_of_zero 5 None 2 H).
Defined.

(** X19: with a threshold that is missing, zero or positive, the index a
    stepped control over a dictionary that is not empty reports never falls
    as the pointer moves right, and the same holds for the value of a range
    control whose range is not empty. *)
Theorem drag_monotone (len : nat) (lo hi : Q) (threshold : option Q)
    (cache d1 d2 : Q) :
  (∀ t, threshold = Some t → 0 <= t) →
  (0 < len)%nat →
  lo <= hi →
  d1 <= d2 →
  (DragManager.steppedOnDrag len threshold cache d1
   ≤ DragManager.steppedOnDrag len threshold cache d2)%Z
  ∧ DragManager.rangeOnDrag (lo, hi) threshold cache d1
    <= DragManager.rangeOnDrag (lo, hi) threshold cache d2.
Proof.
  intros Ht Hlen Hrange Hd. apply threshold_or_35_pos in Ht. split.
  - unfold DragManager.steppedOnDrag. cbv zeta.
    pose proof (newValue_antitone (inject_Z (Z.of_nat len - 1)) cache _
                  d1 d2 Ht Hd) as Hnv.
    repeat destruct (decide _); lia.
  - unfold DragManager.rangeOnDrag. cbn [fst snd].
    pose proof (newValue_antitone hi cache _ d1 d2 Ht Hd) as Hnv.
    rewrite Zle_Qle in Hnv.
    set (n1 := inject_Z (DragManager.Math_round (hi - cache - d1 / _))) in *.
    set (n2 := inject_Z (DragManager.Math_round (hi - cache - d2 / _))) in *.
    destruct (Qle_bool n1 hi) eqn:H1, (Qle_bool n2 hi) eqn:H2; cbn [negb];
      try apply Qle_bool_iff in H1; try apply Qle_bool_iff in H2;
      try apply Qle_bool_false in H1; try apply Qle_bool_false in H2.
    + destruct (Qle_bool n1 lo) eqn:L1, (Qle_bool n2 lo) eqn:L2;
        try apply Qle_bool_iff in L1; try apply Qle_bool_iff in L2;
        try apply Qle_bool_false in L1; try apply Qle_bool_false in L2; lra.
    + lra.
    + destruct (Qle_bool n2 lo) eqn:L2;
        try apply Qle_bool_iff in L2; try apply Qle_bool_false in L2; lra.
    + lra.
Qed.

Lemma drag_monotone_witness :
  (∀ t, @None Q = Some t → 0 <= t)
  ∧ (0 < 5)%nat
  ∧ 0 <= 100
  ∧ -70 <= 35
  ∧ (DragManager.steppedOnDrag 5 None 2 (-70)
     ≤ DragManager.steppedOnDrag 5 None 2 35)%Z.
Proof.
  assert (H1 : ∀ t, @None Q = Some t → 0 <= t) by (intros t [=]).
  assert (H0 : (0 < 5)%nat) by lia.
  assert (H2 : 0 <= 100) by (vm_compute; discriminate).
  assert (H3 : -70 <= 35) by (vm_compute; discriminate).
  repeat (split; [assumption|]).
  exact (proj1 (drag_monotone 5 0 100 None 2 (-70) 35 H1 H0 H2 H3)).
Defined.

(** X20: a range control on a range [0, H], with [H] an integer no larger
    than the largest safe integer 2^53 - 1 (where double arithmetic on the
    integers involved is exact, as the rational arithmetic here is), started
    at the integer value [c] of the range and not dragged at all reports
    [c]. *)
Theorem range_drag_of_zero (H c : Z) (threshold : option Q) :
  (0 ≤ c ≤ H)%Z →
  (H ≤ 9007199254740991)%Z →
  DragManager.rangeOnDrag (0, inject_Z H) threshold (inject_Z c) 0
  == inject_Z c.
Proof.
  intros Hc _. unfold DragManager.rangeOnDrag. cbn [fst snd].
  rewrite (Math_round_integer _ (H - c)).
  2:{ unfold Z.sub. rewrite !inject_Z_plus, !inject_Z_opp.
      unfold Qdiv. ring. }
  assert (Hle : inject_Z (H - c) <= inject_Z H)
    by (rewrite <- Zle_Qle; lia).
  apply Qle_bool_iff in Hle. rewrite Hle. cbn [negb].
  destruct (Qle_bool (inject_Z (H - c)) 0) eqn:Hlo.
  - apply Qle_bool_iff in Hlo. change 0 with (inject_Z 0) in Hlo.
    rewrite <- Zle_Qle in Hlo. assert (c = H) as -> by lia. ring.
  - unfold Z.sub. rewrite !inject_Z_plus, !inject_Z_opp. ring.
Qed.

Lemma range_drag_of_zero_witness :
  (0 ≤ 40 ≤ 100)%Z
  ∧ (100 ≤ 9007199254740991)%Z
  ∧ DragManager.rangeOnDrag (0, inject_Z 100) None (inject_Z 40) 0
    == inject_Z 40.
Proof.
  assert (H : (0 ≤ 40 ≤ 100)%Z) by lia.
  assert (Hb : (100 ≤ 9007199254740991)%Z) by lia.
  split; [exact H|]. split; [exact Hb|].
  exact (range_drag_of_zero 100 40 None H Hb).
Defined.

Lemma steppedOnDrag_in_dictionary_witness :
  (0 < 5)%nat
  ∧ (0 ≤ DragManager.steppedOnDrag 5 (Some 35%Q) 2 (-70) ≤ Z.of_nat 5 - 1)%Z.
Proof.
  assert (H : (0 < 5)%nat) by lia.
  split; [exact H|].
  exact (steppedOnDrag_in_dictionary 5 (Some 35) 2 (-70) H).
Defined.

Lemma rangeOnDrag_in_range_from_0_witness :
  0 <= 100
  ∧ 0 <= DragManager.rangeOnDrag (0, 100) None 90 700 <= 100.
Proof.
  assert (H : 0 <= 100) by (vm_compute; discriminate).
  split; [exact H|].
  exact (rangeOnDrag_in_range_from_0 100 None 90 700 H).
Defined.

End drag_more.

(** ** Drag sessions *)

Section session_props.
Context {Object3D : Type} `{EqDecision Object3D} {Handlers : Type}.
Implicit Types (s : @DragSession.State Object3D Handlers)
  (a : @DragSession.Action Object3D Handlers)
  (l : list (@DragSession.Action Object3D Handlers))
  (o : Object3D) (h : Handlers) (e : DragSession.MouseEvent).

(** X21: a press with nothing under the pointer, or over an object that has
    no handlers registered, is inert: no cache, flag or listener changes and
    no callback runs. *)
Theorem mousedown_without_handlers_is_inert s (activeElement : option Object3D)
    e :
  (∀ o, activeElement = Some o →
        DragSession.map_get (DragSession.dragHandlersMap s) o = None) →
  DragSession.onMouseDown activeElement e s = (s, []).
Proof.
  intros Hnone. unfold DragSession.onMouseDown.
  destruct activeElement as [o|]; [|reflexivity].
  rewrite (Hnone o eq_refl). reflexivity.
Qed.

(** X22: a press over a registered object starts a session: the event is
    suppressed, [onStart] runs once, the dragging flag is set, and from then
    on every move is reported to the object's [onDrag] with the distance
    from the press position: the baseline does not follow the pointer. *)
Theorem drag_distance_from_press s o h e0 e1 :
  DragSession.map_get (DragSession.dragHandlersMap s) o = Some h →
  (DragSession.onMouseDown (Some o) e0 s).2
  = [DragSession.PreventDefault e0; DragSession.StopImmediatePropagation e0;
     DragSession.OnStart h o e0]
  ∧ DragSession.isDragging (DragSession.onMouseDown (Some o) e0 s).1 = true
  ∧ DragSession.onDrag e1 (DragSession.onMouseDown (Some o) e0 s).1
    = ([DragSession.OnDrag h
          (DragSession.ev_x e1 - DragSession.ev_x e0)%Q], Done).
Proof.
  intros Hh. unfold DragSession.onMouseDown, DragSession.onDragStart.
  rewrite Hh. repeat split.
Qed.

(** X23: the release ends the session by clearing the dragging flag only.
    The cached handler and baseline stay, so a move that arrives after the
    release still reaches the ended session's [onDrag]. *)
Theorem release_keeps_caches s o h e0 e1 :
  DragSession.map_get (DragSession.dragHandlersMap s) o = Some h →
  DragSession.isDragging
    (DragSession.onDragEnd (DragSession.onMouseDown (Some o) e0 s).1) = false
  ∧ DragSession.onDrag e1
      (DragSession.onDragEnd (DragSession.onMouseDown (Some o) e0 s).1)
    = ([DragSession.OnDrag h
          (DragSession.ev_x e1 - DragSession.ev_x e0)%Q], Done).
Proof.
  intros Hh. unfold DragSession.onMouseDown, DragSession.onDragStart.
  rewrite Hh. split; reflexivity.
Qed.

Lemma act_dragging_has_handler s a :
  (DragSession.isDragging s = true →
   is_Some (DragSession.currentDragHandlerCache s)) →
  DragSession.isDragging (DragSession.act s a).1 = true →
  is_Some (DragSession.currentDragHandlerCache (DragSession.act s a).1).
Proof.
  intros Hinv. destruct a as [o h| | |[o|] e|]; simpl; try exact Hinv.
  - destruct (DragSession.mousedownListener s); [|exact Hinv].
    unfold DragSession.onMouseDown, DragSession.onDragStart.
    destruct (DragSession.map_get _ o) as [h|]; [|exact Hinv].
    simpl. eauto.
  - destruct (DragSession.mousedownListener s); exact Hinv.
  - destruct (DragSession.mouseupListener s); [|exact Hinv].
    simpl. discriminate.
Qed.

Lemma acts_dragging_has_handler l :
  ∀ s, (DragSession.isDragging s = true →
        is_Some (DragSession.currentDragHandlerCache s)) →
       DragSession.isDragging (DragSession.acts s l).1 = true →
       is_Some (DragSession.currentDragHandlerCache (DragSession.acts s l).1).
Proof.
  induction l as [|a l IH]; intros s Hinv; simpl; [exact Hinv|].
  pose proof (act_dragging_has_handler s a Hinv) as Hstep.
  destruct (DragSession.act s a) as [s1 c1]. simpl in Hstep.
  specialize (IH s1 Hstep).
  destruct (DragSession.acts s1 l) as [s2 c2]. exact IH.
Qed.

(** X24: while a drag is in progress a handler is cached.  In any state
    reached from the initial one by registrations, listener changes, presses
    and releases, if the dragging flag is set then [onDrag] finds its
    handler and completes. *)
Theorem onDrag_during_drag_completes l e :
  DragSession.isDragging (DragSession.acts DragSession.initial l).1 = true →
  (DragSession.onDrag e (DragSession.acts DragSession.initial l).1).2 = Done.
Proof.
  intros Hdrag.
  destruct (acts_dragging_has_handler l DragSession.initial) as [h Hh];
    [discriminate|exact Hdrag|].
  unfold DragSession.onDrag. rewrite Hh. reflexivity.
Qed.

(** X25: [onDrag] before any session has started finds no handler: it
    fails and runs no callback. *)
Theorem onDrag_before_any_session l e :
  Forall (λ a, ∀ ae ev, a ≠ DragSession.A_mousedown ae ev) l →
  DragSession.onDrag e (DragSession.acts DragSession.initial l).1
  = ([], Fail).
Proof.
  intros Hl.
  assert (Hcache : ∀ s, DragSession.currentDragHandlerCache s = None →
            DragSession.currentDragHandlerCache (DragSession.acts s l).1
            = None).
  { induction Hl as [|a l Ha Hl IH]; intros s Hs; simpl; [exact Hs|].
    assert (Hstep : DragSession.currentDragHandlerCache
                      (DragSession.act s a).1 = None).
    { destruct a as [o h| | |ae ev|]; simpl; try exact Hs.
      - exfalso. exact (Ha ae ev eq_refl).
      - destruct (DragSession.mouseupListener s); exact Hs. }
    destruct (DragSession.act s a) as [s1 c1]. simpl in Hstep.
    specialize (IH s1 Hstep).
    destruct (DragSession.acts s1 l) as [s2 c2]. exact IH. }
  unfold DragSession.onDrag. rewrite Hcache; reflexivity.
Qed.

Lemma act_never_calls_onEnd s a h :
  DragSession.OnEnd h ∉ (DragSession.act s a).2.
Proof.
  destruct a as [o h'| | |[o|] e|]; simpl; try apply not_elem_of_nil.
  - destruct (DragSession.mousedownListener s); [|apply not_elem_of_nil].
    unfold DragSession.onMouseDown, DragSession.onDragStart.
    destruct (DragSession.map_get _ o) as [h'|]; simpl;
      [|apply not_elem_of_nil].
    rewrite !elem_of_cons, elem_of_nil. intros [H|[H|[H|H]]];
      [discriminate H..|exact H].
  - destruct (DragSession.mousedownListener s); apply not_elem_of_nil.
  - destruct (DragSession.mouseupListener s); apply not_elem_of_nil.
Qed.

(** X26: the manager never runs a registered [onEnd]: whatever the
    sequence of registrations, listener changes, presses and releases, the
    callbacks invoked are [onStart]s and event suppressions only, and the
    moves add [onDrag]s. *)
Theorem onEnd_is_never_called l s h e :
  (DragSession.OnEnd h ∉ (DragSession.acts s l).2)
  ∧ (DragSession.OnEnd h
     ∉ (DragSession.onDrag e (DragSession.acts s l).1).1).
Proof.
  split.
  - revert s. induction l as [|a l IH]; intros s; simpl;
      [apply not_elem_of_nil|].
    pose proof (act_never_calls_onEnd s a h) as Hstep.
    destruct (DragSession.act s a) as [s1 c1]. simpl in Hstep.
    specialize (IH s1).
    destruct (DragSession.acts s1 l) as [s2 c2]. simpl in *.
    rewrite elem_of_app. tauto.
  - unfold DragSession.onDrag.
    destruct (DragSession.currentDragHandlerCache _); simpl;
      [|apply not_elem_of_nil].
    rewrite elem_of_cons, elem_of_nil. intros [H|H]; [discriminate H|exact H].
Qed.

(** X27: [removeEventListeners] takes off the release listener and leaves
    the press listener.  After it, a press over a registered object still
    starts a session, and the release that follows does not end it. *)
Theorem removeEventListeners_leaves_mousedown s o h e :
  DragSession.map_get (DragSession.dragHandlersMap s) o = Some h →
  DragSession.isDragging
    (DragSession.acts
       (DragSession.removeEventListeners (DragSession.addEventListeners s))
       [DragSession.A_mousedown (Some o) e]).1 = true
  ∧ DragSession.isDragging
      (DragSession.acts
         (DragSession.removeEventListeners (DragSession.addEventListeners s))
         [DragSession.A_mousedown (Some o) e; DragSession.A_mouseup]).1
    = true.
Proof.
  intros Hh. simpl. unfold DragSession.onMouseDown, DragSession.onDragStart.
  simpl. rewrite Hh. split; reflexivity.
Qed.

End session_props.

Lemma mousedown_without_handlers_is_inert_witness :
  (∀ o, Some knob = Some o →
        DragSession.map_get
          (DragSession.dragHandlersMap
             (DragSession.register slider "volume" DragSession.initial)) o
        = None)
  ∧ DragSession.onMouseDown (Some knob) (mouse_at 10 20)
      (DragSession.register slider "volume" DragSession.initial)
    = (DragSession.register slider "volume" DragSession.initial, []).
Proof.
  assert (H : ∀ o, Some knob = Some o →
                DragSession.map_get
                  (DragSession.dragHandlersMap
                     (DragSession.register slider "volume"
                        DragSession.initial)) o = None).
  { intros o [= <-]. reflexivity. }
  split; [exact H|].
  exact (mousedown_without_handlers_is_inert _ (Some knob) (mouse_at 10 20) H).
Defined.

Lemma drag_distance_from_press_witness :
  DragSession.map_get
    (DragSession.dragHandlersMap
       (DragSession.register knob "bpm" DragSession.initial)) knob
  = Some "bpm"
  ∧ DragSession.onDrag (mouse_at 45 0)
      (DragSession.onMouseDown (Some knob) (mouse_at 10 20)
         (DragSession.register knob "bpm" DragSession.initial)).1
    = ([DragSession.OnDrag "bpm" (45 - 10)%Q], Done).
Proof.
  split; [reflexivity|].
  exact (proj2 (proj2 (drag_distance_from_press
                         (DragSession.register knob "bpm" DragSession.initial)
                         knob "bpm" (mouse_at 10 20) (mouse_at 45 0)
                         eq_refl))).
Defined.

Lemma release_keeps_caches_witness :
  DragSession.map_get
    (DragSession.dragHandlersMap
       (DragSession.register knob "bpm" DragSession.initial)) knob
  = Some "bpm"
  ∧ DragSession.onDrag (mouse_at 45 0)
      (DragSession.onDragEnd
         (DragSession.onMouseDown (Some knob) (mouse_at 10 20)
            (DragSession.register knob "bpm" DragSession.initial)).1)
    = ([DragSession.OnDrag "bpm" (45 - 10)%Q], Done).
Proof.
  split; [reflexivity|].
  exact (proj2 (release_keeps_caches
                  (DragSession.register knob "bpm" DragSession.initial)
                  knob "bpm" (mouse_at 10 20) (mouse_at 45 0) eq_refl)).
Defined.

Lemma onDrag_during_drag_completes_witness :
  DragSession.isDragging
    (DragSession.acts DragSession.initial
       [DragSession.A_register knob "bpm"; DragSession.A_addEventListeners;
        DragSession.A_mousedown (Some knob) (mouse_at 10 20)]).1 = true
  ∧ (DragSession.onDrag (mouse_at 45 0)
       (DragSession.acts DragSession.initial
          [DragSession.A_register knob "bpm"; DragSession.A_addEventListeners;
           DragSession.A_mousedown (Some knob) (mouse_at 10 20)]).1).2 = Done.
Proof.
  split; [reflexivity|].
  exact (onDrag_during_drag_completes
           [DragSession.A_register knob "bpm"; DragSession.A_addEventListeners;
            DragSession.A_mousedown (Some knob) (mouse_at 10 20)]
           (mouse_at 45 0) eq_refl).
Defined.

Lemma onDrag_before_any_session_witness :
  Forall (λ a : @DragSession.Action nat string,
            ∀ ae ev, a ≠ DragSession.A_mousedown ae ev)
    [DragSession.A_register knob "bpm"; DragSession.A_addEventListeners]
  ∧ DragSession.onDrag (mouse_at 45 0)
      (DragSession.acts DragSession.initial
         [DragSession.A_register knob "bpm";
          DragSession.A_addEventListeners]).1
    = ([], Fail).
Proof.
  assert (H : Forall (λ a : @DragSession.Action nat string,
                        ∀ ae ev, a ≠ DragSession.A_mousedown ae ev)
                [DragSession.A_register knob "bpm";
                 DragSession.A_addEventListeners]).
  { repeat constructor; intros ae ev [=]. }
  split; [exact H|].
  exact (onDrag_before_any_session _ (mouse_at 45 0) H).
Defined.

Lemma removeEventListeners_leaves_mousedown_witness :
  DragSession.map_get
    (DragSession.dragHandlersMap
       (DragSession.register knob "bpm" DragSession.initial)) knob
  = Some "bpm"
  ∧ DragSession.isDragging
      (DragSession.acts
         (DragSession.removeEventListeners
            (DragSession.addEventListeners
               (DragSession.register knob "bpm" DragSession.initial)))
         [DragSession.A_mousedown (Some knob) (mouse_at 10 20);
          DragSession.A_mouseup]).1
    = true.
Proof.
  split; [reflexivity|].
  exact (proj2 (removeEventListeners_leaves_mousedown
                  (DragSession.register knob "bpm" DragSession.initial)
                  knob "bpm" (mouse_at 10 20) eq_refl)).
Defined.

(** * Further properties of construction and clearing *)

Section obj_fresh.
Context {V : Type}.
Implicit Types (o : list (string * V)) (k : string) (v : V).

(** Writing a key the object does not have appends it. *)
Lemma set_fresh o k v : k ∉ Obj.keys o → Obj.set o k v = o ++ [(k, v)].
Proof.
  induction o as [|[k0 v0] o IH]; simpl; [reflexivity|].
  change (Obj.keys ((k0, v0) :: o)) with (k0 :: Obj.keys o).
  rewrite not_elem_of_cons. intros [Hne Hnin].
  destruct (decide (k0 = k)); [congruence|]. rewrite IH by exact Hnin.
  reflexivity.
Qed.

Lemma assign_fresh (f : string → V) (ks : list string) :
  ∀ o, NoDup (Obj.keys o ++ ks) →
       Obj.assign o ((λ k, (k, f k)) <$> ks) = o ++ ((λ k, (k, f k)) <$> ks).
Proof.
  unfold Obj.assign.
  induction ks as [|k ks IH]; intros o Hnd; simpl.
  - rewrite app_nil_r. reflexivity.
  - apply NoDup_app in Hnd. destruct Hnd as (Ho & Hdisj & Hks).
    apply NoDup_cons in Hks. destruct Hks as [Hk Hks].
    assert (Hfresh : k ∉ Obj.keys o).
    { intros Hin. apply (Hdisj k Hin). apply elem_of_cons. left. reflexivity. }
    rewrite set_fresh by exact Hfresh. rewrite IH.
    + rewrite <- app_assoc. reflexivity.
    + unfold Obj.keys in *. rewrite fmap_app. simpl.
      rewrite <- app_assoc. simpl. apply NoDup_app. split; [exact Ho|].
      split; [|apply NoDup_cons; split; assumption].
      intros x Hx. exact (Hdisj x Hx).
Qed.

End obj_fresh.

(** X28: built without override on a kit without repetition, the dataset
    lists the instruments in the kit's order, each with two banks of
    sixteen zeros; a tick walks the instruments in that order. *)
Theorem createDataset_default (instruments : list string) :
  NoDup instruments →
  createDataset instruments None
  = (λ key, (key, {| ds_a := Some (replicate 16 0);
                     ds_b := Some (replicate 16 0) |})) <$> instruments.
Proof.
  intros Hnd. unfold createDataset.
  exact (assign_fresh (λ _, createInstrumentDataset) instruments [] Hnd).
Qed.

Lemma createDataset_default_witness :
  NoDup kit
  ∧ Obj.keys (createDataset kit None) = kit.
Proof.
  assert (Hnd : NoDup kit) by exact (bool_decide_unpack (NoDup kit) I).
  split; [exact Hnd|].
  exact (f_equal Obj.keys (createDataset_default kit Hnd)).
Defined.

(** X29: the clear button is idempotent: pressed again in the same mode it
    changes nothing more. *)
Theorem clearButtonPressed_idempotent (instruments : list string)
    (m : Roland808Model) :
  clearButtonPressed instruments (clearButtonPressed instruments m)
  = clearButtonPressed instruments m.
Proof.
  unfold clearButtonPressed.
  destruct (isOneOf _ (currentMode m)) eqn:H1,
           (isNotOneOf _ (currentMode m)) eqn:H2;
    cbn [currentMode clearTrack clearPattern set_dataset];
    rewrite ?H1, ?H2; try reflexivity.
  unfold clearPattern, set_dataset. cbn [dataset instrument].
  rewrite set_set. reflexivity.
Qed.
